(** * mysqldump: a shallow embedding of [mysqldump.go] and its properties

    The Go package exports one entry point, [Dump], which writes the
    structure and the rows of the tables of a MySQL database as an SQL
    script.  This file embeds the package in Rocq:

    - Go strings are [string]s (sequences of bytes);
    - a scanned cell ([interface{}]) is a [GoValue], one constructor per
      dynamic type the driver delivers;
    - functions that write to the buffered writer and may [return] early or
      panic live in a small state-and-control monad [M];
    - the database handle is a record of the answers to the queries the
      package sends, keyed by the SQL text it builds.

    The library functions the package calls ([strings.Replace],
    [fmt.Sprintf], [time.Time.Format]) are modelled after the Go standard
    library.  The lines the package writes to the process log
    ([log.Printf], [log.Println]) are left out: they change neither the
    script nor the value returned. *)

From Stdlib Require Import ZArith Ascii String Floats Lia.
From stdpp Require Import gmap strings list.

Local Open Scope Z_scope.

(** ** Go strings *)

Module GoString.

(** [len(s)] *)
Definition len (s : string) : nat := String.length s.

(** [s[:n]]; Go panics when [n > len(s)], the model stops at the end. *)
Fixpoint take (n : nat) (s : string) : string :=
  match n, s with
  | S n', String c s' => String c (take n' s')
  | _, _ => ""
  end.

(** [s[n:]] *)
Fixpoint drop (n : nat) (s : string) : string :=
  match n, s with
  | S n', String _ s' => drop n' s'
  | _, _ => s
  end.

(** [strings.HasPrefix(s, prefix)] *)
Fixpoint HasPrefix (s prefix : string) {struct prefix} : bool :=
  match prefix, s with
  | "", _ => true
  | String p prefix', String c s' => if Ascii.eqb p c then HasPrefix s' prefix' else false
  | String _ _, "" => false
  end.

(** [strings.Index(s, substr)]: the byte offset of the first instance of
    [substr] in [s]; [None] stands for Go's [-1]. *)
Fixpoint Index (s substr : string) : option nat :=
  if HasPrefix s substr then Some 0%nat
  else match s with
       | "" => None
       | String _ s' => S <$> Index s' substr
       end.

Definition byte_val (c : ascii) : Z := Z.of_N (N_of_ascii c).

(** The table [first] of package [unicode/utf8], read as: the length of
    the sequence a leading byte announces and the range its second byte
    must lie in; [None] for a byte that cannot start a sequence. *)
Definition utf8_first (b : Z) : option (nat * Z * Z) :=
  if b <? 0xC2 then None
  else if b <? 0xE0 then Some (2%nat, 0x80, 0xBF)
  else if b =? 0xE0 then Some (3%nat, 0xA0, 0xBF)
  else if b <? 0xED then Some (3%nat, 0x80, 0xBF)
  else if b =? 0xED then Some (3%nat, 0x80, 0x9F)
  else if b <? 0xF0 then Some (3%nat, 0x80, 0xBF)
  else if b =? 0xF0 then Some (4%nat, 0x90, 0xBF)
  else if b <? 0xF4 then Some (4%nat, 0x80, 0xBF)
  else if b =? 0xF4 then Some (4%nat, 0x80, 0x8F)
  else None.

Definition is_cont (c : ascii) : bool :=
  (0x80 <=? byte_val c) && (byte_val c <=? 0xBF).

(** The width [utf8.DecodeRuneInString(s)] returns: 0 for the empty
    string, 1 for an ASCII byte or an invalid sequence, else the length
    of the encoded rune. *)
Definition DecodeRuneWidth (s : string) : nat :=
  match s with
  | "" => 0%nat
  | String c0 r0 =>
      if byte_val c0 <? 0x80 then 1%nat
      else match utf8_first (byte_val c0) with
           | None => 1%nat
           | Some (sz, lo, hi) =>
               if (len s <? sz)%nat then 1%nat
               else match r0 with
                    | String c1 r1 =>
                        if (byte_val c1 <? lo) || (hi <? byte_val c1) then 1%nat
                        else if (sz <=? 2)%nat then 2%nat
                        else match r1 with
                             | String c2 r2 =>
                                 if negb (is_cont c2) then 1%nat
                                 else if (sz <=? 3)%nat then 3%nat
                                 else match r2 with
                                      | String c3 _ =>
                                          if negb (is_cont c3) then 1%nat else 4%nat
                                      | "" => 1%nat
                                      end
                             | "" => 1%nat
                             end
                    | "" => 1%nat
                    end
           end
  end.

(** [utf8.RuneCountInString(s)]; a rune takes at least one byte, so
    [len s] steps reach the end. *)
Fixpoint rune_count (fuel : nat) (s : string) : nat :=
  match fuel, s with
  | S fuel', String _ _ => S (rune_count fuel' (drop (DecodeRuneWidth s) s))
  | _, _ => 0%nat
  end.

Definition RuneCountInString (s : string) : nat := rune_count (len s) s.

(** The loop of [strings.Count] for a non-empty [substr]: every instance
    found drops at least one byte, so [len s] steps reach the end. *)
Fixpoint count_loop (fuel : nat) (s substr : string) : nat :=
  match fuel with
  | O => 0%nat
  | S fuel' =>
      match Index s substr with
      | None => 0%nat
      | Some i => S (count_loop fuel' (drop (i + len substr) s) substr)
      end
  end.

(** [strings.Count(s, substr)] *)
Definition Count (s substr : string) : nat :=
  match substr with
  | "" => (RuneCountInString s + 1)%nat
  | String _ _ => count_loop (len s) s substr
  end.

(** The loop [for i := 0; i < n; i++] of [strings.Replace], on the part
    [rest = s[start:]] still to be copied; [first] is [i == 0]. *)
Fixpoint replace_loop (n : nat) (first : bool) (rest old new : string) : string :=
  match n with
  | O => rest
  | S n' =>
      let j := match old with
               | "" => Some (if first then 0%nat else DecodeRuneWidth rest)
               | String _ _ => Index rest old
               end in
      match j with
      | Some j =>
          take j rest +:+ new +:+ replace_loop n' false (drop (j + len old) rest) old new
      | None => rest
      end
  end.

(** [strings.Replace(s, old, new, n)]: the first [n] non-overlapping
    instances of [old] replaced by [new]; no limit when [n < 0]. *)
Definition Replace (s old new : string) (n : Z) : string :=
  if bool_decide (old = new) || (n =? 0) then s
  else
    let m := Count s old in
    if (m =? 0)%nat then s
    else
      let n := if (n <? 0) || (Z.of_nat m <? n) then m else Z.to_nat n in
      replace_loop n true s old new.

End GoString.

(** ** Cells and formatting *)

(** The calendar date and wall-clock time a [time.Time] reads in its own
    location: what [t.Date()] and [t.Clock()] return, which is all that
    [Format] looks at for the layouts used here. *)
Record Time := mkTime {
  Year : Z; Month : Z; Day : Z;
  Hour : Z; Minute : Z; Second : Z
}.

(** A scanned cell: [rows.Scan] into a [*interface{}] stores the driver's
    value as it is, so the dynamic type is one of these.  An integer is
    held as the number it stands for, a float as the binary64 of the same
    value. *)
Inductive GoValue : Type :=
| VNil                      (* nil *)
| VInt64 (n : Z)            (* int64 *)
| VUint64 (n : Z)           (* uint64 *)
| VFloat32 (x : float)      (* float32, held exactly *)
| VFloat64 (x : float)      (* float64 *)
| VBool (b : bool)          (* bool *)
| VBytes (bs : string)      (* []byte *)
| VString (s : string)      (* string *)
| VTime (t : Time).         (* time.Time *)

Module Fmt.

Definition digit (d : Z) : ascii := ascii_of_N (Z.to_N (48 + d)).

(** The digit loop of [fmt.fmtInteger] in base 10, writing from the
    right end of the buffer:
    [for u >= 10 { next := u / 10; buf[i] = '0' + u - next*10; u = next }]
    and then the leading digit. *)
Fixpoint digits_loop (fuel : nat) (u : Z) (acc : string) : string :=
  match fuel with
  | O => acc
  | S fuel' =>
      if u <? 10 then String (digit u) acc
      else let next := u / 10 in
           digits_loop fuel' next (String (digit (u - next * 10)) acc)
  end.

(** A number has no more decimal digits than binary ones. *)
Definition digits (u : Z) : string :=
  digits_loop (S (Z.to_nat (Z.log2 u))) u "".

(** [%d] of an integer: the sign, then the digits of the magnitude. *)
Definition fmtInteger (n : Z) : string :=
  if n <? 0 then String "-" (digits (- n)) else digits n.

Fixpoint zeros (n : nat) : string :=
  match n with O => "" | S n' => String "0" (zeros n') end.

(** Zero padding on the left up to [width] bytes. *)
Definition pad_left (width : nat) (s : string) : string :=
  zeros (width - GoString.len s) +:+ s.

Definition pow10_6 : Z := 1000000.

(** The integer nearest to [m * 10^6 * 2^e], ties to even: what
    [strconv]'s decimal conversion keeps of a binary float for six
    fractional digits. *)
Definition scaled_round (m e : Z) : Z :=
  if 0 <=? e then m * pow10_6 * 2 ^ e
  else
    let num := m * pow10_6 in
    let den := 2 ^ (- e) in
    let q := num / den in
    let r := num mod den in
    if (den <? 2 * r) || ((2 * r =? den) && Z.odd q) then q + 1 else q.

Definition fixed6 (neg : bool) (k : Z) : string :=
  (if neg then "-" else "") +:+ digits (k / pow10_6) +:+ "."
    +:+ pad_left 6 (digits (k mod pow10_6)).

(** [%f] of a float: [strconv.AppendFloat(_, v, 'f', 6, size)]. *)
Definition fmtFloat_f (x : float) : string :=
  match Prim2SF x with
  | S754_nan => "NaN"
  | S754_infinity false => "+Inf"
  | S754_infinity true => "-Inf"
  | S754_zero neg => fixed6 neg 0
  | S754_finite neg m e => fixed6 neg (scaled_round (Z.pos m) e)
  end.

Definition hex_digit (d : Z) : ascii :=
  if d <? 10 then digit d else ascii_of_N (Z.to_N (55 + d)).

(** [%X] of a byte sequence: two upper-case hexadecimal digits a byte. *)
Fixpoint fmtSbx_upper (s : string) : string :=
  match s with
  | "" => ""
  | String c s' =>
      let b := GoString.byte_val c in
      String (hex_digit (b / 16)) (String (hex_digit (b mod 16)) (fmtSbx_upper s'))
  end.

(** [time.appendInt(b, x, width)] *)
Definition appendInt (x : Z) (width : nat) : string :=
  (if x <? 0 then "-" else "") +:+ pad_left width (digits (Z.abs x)).

(** [t.Format("2006-01-02")] *)
Definition Format_date (t : Time) : string :=
  appendInt (Year t) 4 +:+ "-" +:+ appendInt (Month t) 2 +:+ "-" +:+ appendInt (Day t) 2.

(** [t.Format("2006-01-02 15:04:05")] *)
Definition Format_datetime (t : Time) : string :=
  Format_date t +:+ " " +:+ appendInt (Hour t) 2 +:+ ":" +:+ appendInt (Minute t) 2
    +:+ ":" +:+ appendInt (Second t) 2.

End Fmt.

(** ** Errors, control flow and the buffered writer *)

(** A non-nil value of Go's [error] interface, with the text [Error()]
    returns; the nil error is [None] of [option error]. *)
Inductive error : Type := GoError (msg : string).

(** A Go result pair [(T, error)] whose first component is meaningful only
    when the error is nil. *)
Inductive result (A : Type) : Type :=
| Ok (a : A)
| Failed (e : error).
Arguments Ok {A} a.
Arguments Failed {A} e.

(** How a block of statements ends: it falls through to the next statement
    with a value, it executes [return e], or it panics. *)
Inductive ctl (A : Type) : Type :=
| Next (a : A)
| Return (e : option error)
| Panic (reason : string).
Arguments Next {A} a.
Arguments Return {A} e.
Arguments Panic {A} reason.

#[global] Instance ctl_ret : MRet ctl := fun A a => Next a.
#[global] Instance ctl_bind : MBind ctl := fun A B k m =>
  match m with
  | Next a => k a
  | Return e => Return e
  | Panic r => Panic r
  end.

(** Statements that write to [buf *bufio.Writer]: the state is the text
    written so far.  The write errors are dropped by the source
    ([_, _ = buf.WriteString(..)]) and the deferred [buf.Flush()] runs on
    every exit, so the text written is what reaches the sink. *)
Definition M (A : Type) : Type := string -> string * ctl A.

#[global] Instance M_ret : MRet M := fun A a buf => (buf, Next a).
#[global] Instance M_bind : MBind M := fun A B k m buf =>
  match m buf with
  | (buf', Next a) => k a buf'
  | (buf', Return e) => (buf', Return e)
  | (buf', Panic r) => (buf', Panic r)
  end.

(** [_, _ = buf.WriteString(s)] *)
Definition WriteString (s : string) : M unit := fun buf => (buf +:+ s, Next tt).

(** [return e] *)
Definition return_ {A : Type} (e : option error) : M A := fun buf => (buf, Return e).

(** A pure block run inside a function that writes. *)
Definition lift {A : Type} (c : ctl A) : M A := fun buf => (buf, c).

(** [err = f(..)]: the call of a function whose body is [body]; its
    [return e] is the value of the call, a panic goes on unwinding. *)
Definition call (body : M unit) : M (option error) := fun buf =>
  match body buf with
  | (buf', Return e) => (buf', Next e)
  | (buf', Next _) => (buf', Next None)
  | (buf', Panic r) => (buf', Panic r)
  end.

(** The line feed the source writes as the escape [\n]. *)
Definition nl : string := String "010" "".

(** ** The database *)

(** [*sql.Rows]: the column names, the [DatabaseTypeName()] of every
    column type, and what the successive calls of [rows.Scan(dest...)]
    return while [rows.Next()] holds: an error, or the values stored in the
    destinations (one per destination, so [len(columns)] of them in
    [writeTableData]). *)
Record Rows (A : Type) : Type := mkRows {
  Columns : result (list string);
  ColumnTypes : result (list string);
  scans : list (result A)
}.
Arguments mkRows {A} _ _ _.
Arguments Columns {A} _.
Arguments ColumnTypes {A} _.
Arguments scans {A} _.

(** [*sql.DB], by the SQL text sent. *)
Record DB : Type := mkDB {
  (** [_, err = db.Exec(query)] *)
  Exec : string -> option error;
  (** [db.Query(query)], every row scanned into one [*string] *)
  Query_string : string -> result (Rows string);
  (** [db.QueryRow(query).Scan(&a, &b)] with two [*string] *)
  QueryRow_string2 : string -> result (string * string);
  (** [db.Query(query)], every row scanned into [*interface{}] cells *)
  Query : string -> result (Rows (list GoValue))
}.

(** What lies outside the package: the clock, [sql.Open], and
    [GetDBNameFromDSN], a function of the package that is defined in
    another file and is taken as given. *)
Record Env : Type := mkEnv {
  (** [start.Format("2006-01-02 15:04:05")] *)
  start_Format : string;
  (** [time.Since(start).String()] at the end of the dump *)
  since_String : string;
  sql_Open : string -> result DB;
  GetDBNameFromDSN : string -> result string
}.

(** ** Options *)

Record dumpOption : Type := mkOption {
  isData : bool;
  tables : list string;
  ignoreTables : list string;
  isAllTable : bool;
  isDropTable : bool;
  isIgnoreInsert : bool;
  (** an [io.Writer], named by a handle; [None] is the nil interface *)
  writer : option nat
}.

(** [var o dumpOption] *)
Definition zero_option : dumpOption := mkOption false [] [] false false false None.

Definition DumpOption : Type := dumpOption -> dumpOption.

Definition WithDropTable : DumpOption := fun o =>
  mkOption (isData o) (tables o) (ignoreTables o) (isAllTable o) true (isIgnoreInsert o) (writer o).

Definition WithData : DumpOption := fun o =>
  mkOption true (tables o) (ignoreTables o) (isAllTable o) (isDropTable o) (isIgnoreInsert o) (writer o).

Definition WithIgnoreInsertTable : DumpOption := fun o =>
  mkOption (isData o) (tables o) (ignoreTables o) (isAllTable o) (isDropTable o) true (writer o).

Definition WithIgnoreTables (ts : list string) : DumpOption := fun o =>
  mkOption (isData o) (tables o) ts (isAllTable o) (isDropTable o) (isIgnoreInsert o) (writer o).

Definition WithTables (ts : list string) : DumpOption := fun o =>
  mkOption (isData o) ts (ignoreTables o) (isAllTable o) (isDropTable o) (isIgnoreInsert o) (writer o).

Definition WithAllTable : DumpOption := fun o =>
  mkOption (isData o) (tables o) (ignoreTables o) true (isDropTable o) (isIgnoreInsert o) (writer o).

Definition WithWriter (w : nat) : DumpOption := fun o =>
  mkOption (isData o) (tables o) (ignoreTables o) (isAllTable o) (isDropTable o) (isIgnoreInsert o) (Some w).

(** [for _, opt := range opts { opt(&o) }] *)
Definition apply_options (opts : list DumpOption) : dumpOption :=
  foldl (fun o opt => opt o) zero_option opts.

(** ** The package *)

Section Package.

(** What [fmt] prints for a verb applied to an operand outside the cases
    written out in [fmt_verb]: the [%!verb(type=value)] diagnostics, the
    reflective printing of a [time.Time], hexadecimal floats and
    integers.  The package's results never depend on them in the
    properties below, so they are left open. *)
Variable fmt_other : ascii -> GoValue -> string.

(** One verb without flags applied to one operand. *)
Definition fmt_verb (verb : ascii) (a : GoValue) : string :=
  match a with
  | VInt64 n | VUint64 n =>
      if Ascii.eqb verb "d" then Fmt.fmtInteger n else fmt_other verb a
  | VFloat32 x | VFloat64 x =>
      if Ascii.eqb verb "f" then Fmt.fmtFloat_f x else fmt_other verb a
  | VBytes s | VString s =>
      if Ascii.eqb verb "s" then s
      else if Ascii.eqb verb "X" then Fmt.fmtSbx_upper s
      else fmt_other verb a
  | _ => fmt_other verb a
  end.

(** [fmt.Sprintf(format, a)] for the formats of the package: literal
    text around a single verb. *)
Fixpoint Sprintf (format : string) (a : GoValue) : string :=
  match format with
  | "" => ""
  | String c rest =>
      if Ascii.eqb c "%" then
        match rest with
        | String verb rest' => fmt_verb verb a +:+ rest'
        | "" => "%!(NOVERB)"
        end
      else String c (Sprintf rest a)
  end.

(** The dynamic type as a failed type assertion names it. *)
Definition type_name (a : GoValue) : string :=
  match a with
  | VNil => "nil"
  | VInt64 _ => "int64"
  | VUint64 _ => "uint64"
  | VFloat32 _ => "float32"
  | VFloat64 _ => "float64"
  | VBool _ => "bool"
  | VBytes _ => "[]uint8"
  | VString _ => "string"
  | VTime _ => "time.Time"
  end.

(** [fmt.Errorf(format, a)] *)
Definition Errorf (format : string) (a : GoValue) : error :=
  GoError (Sprintf format a).

(** [case l1, l2, ...:] of a [switch] on a string *)
Definition is_case (tag : string) (labels : list string) : bool :=
  existsb (String.eqb tag) labels.

(** Lines 310-313: the type name the [switch] looks at. *)
Definition normalize (Type_ : string) : string :=
  let Type_ := GoString.Replace Type_ "UNSIGNED" "" (-1) in
  GoString.Replace Type_ " " "" (-1).

(** Lines 314-383: the [switch Type] for a non-nil [col]; the result is
    the text added to [ssql].  [err] is the function's variable [err] as
    it stands when the loop runs. *)
Definition render_value (err : option error) (Type_ : string) (col : GoValue)
  : ctl string :=
  if is_case Type_ ["TINYINT"; "SMALLINT"; "MEDIUMINT"; "INT"; "INTEGER"; "BIGINT"] then
    match col with
    | VBytes bs => Next bs
    | _ => Next (Sprintf "%d" col)
    end
  else if is_case Type_ ["FLOAT"; "DOUBLE"] then
    match col with
    | VBytes bs => Next bs
    | _ => Next (Sprintf "%f" col)
    end
  else if is_case Type_ ["DECIMAL"; "DEC"] then
    Next (Sprintf "%s" col)
  else if is_case Type_ ["DATE"] then
    match col with
    | VTime t => Next (Sprintf "'%s'" (VString (Fmt.Format_date t)))
    | _ => Return err
    end
  else if is_case Type_ ["DATETIME"] then
    match col with
    | VTime t => Next (Sprintf "'%s'" (VString (Fmt.Format_datetime t)))
    | _ => Return err
    end
  else if is_case Type_ ["TIMESTAMP"] then
    match col with
    | VTime t => Next (Sprintf "'%s'" (VString (Fmt.Format_datetime t)))
    | _ => Return err
    end
  else if is_case Type_ ["TIME"] then
    match col with
    | VBytes t => Next (Sprintf "'%s'" (VString t))
    | _ => Return err
    end
  else if is_case Type_ ["YEAR"] then
    match col with
    | VBytes t => Next t
    | _ => Return err
    end
  else if is_case Type_ ["CHAR"; "VARCHAR"; "TINYTEXT"; "TEXT"; "MEDIUMTEXT"; "LONGTEXT"] then
    Next (Sprintf "'%s'" (VString (GoString.Replace (Sprintf "%s" col) "'" "''" (-1))))
  else if is_case Type_ ["BIT"; "BINARY"; "VARBINARY"; "TINYBLOB"; "BLOB"; "MEDIUMBLOB"; "LONGBLOB"] then
    Next (Sprintf "0x%X" col)
  else if is_case Type_ ["ENUM"; "SET"] then
    Next (Sprintf "'%s'" col)
  else if is_case Type_ ["BOOL"; "BOOLEAN"] then
    match col with
    | VBool b => Next (if b then "true" else "false")
    | _ => Panic ("interface conversion: interface {} is " +:+ type_name col +:+ ", not bool")
    end
  else if is_case Type_ ["JSON"] then
    Next (Sprintf "'%s'" col)
  else
    Return (Some (Errorf "unsupported type: %s" (VString Type_))).

(** Lines 307-384: one cell.  The nil test comes first; only a non-nil
    cell reads [columnTypes[i]]. *)
Definition render_cell (err : option error) (columnTypes : list string)
    (i : nat) (col : GoValue) : ctl string :=
  match col with
  | VNil => Next "NULL"
  | _ =>
      match columnTypes !! i with
      | Some ct => render_value err (normalize ct) col
      | None =>
          Panic ("runtime error: index out of range [" +:+ Fmt.digits (Z.of_nat i)
                   +:+ "] with length " +:+ Fmt.digits (Z.of_nat (length columnTypes)))
      end
  end.

(** Lines 306-388: [for i, col := range row], from index [i] on; [n] is
    [len(row)]. *)
Fixpoint row_loop (err : option error) (columnTypes : list string) (n : nat)
    (i : nat) (cols : list GoValue) (ssql : string) : ctl string :=
  match cols with
  | [] => Next ssql
  | col :: cols' =>
      lit ← render_cell err columnTypes i col;
      let ssql := ssql +:+ lit in
      let ssql := if Z.of_nat i <? Z.of_nat n - 1 then ssql +:+ "," else ssql in
      row_loop err columnTypes n (S i) cols' ssql
  end.

(** Lines 300-304: the text a statement starts with. *)
Definition insert_head (table : string) (ignoreInsert : bool) : string :=
  let ssql := "INSERT INTO `" +:+ table +:+ "` VALUES (" in
  if ignoreInsert then "INSERT IGNORE INTO `" +:+ table +:+ "` VALUES (" else ssql.

(** Lines 299-391: [for _, row := range values]. *)
Fixpoint rows_loop (err : option error) (table : string) (ignoreInsert : bool)
    (columnTypes : list string) (values : list (list GoValue)) : M unit :=
  match values with
  | [] => mret tt
  | row :: values' =>
      ssql ← lift (row_loop err columnTypes (length row) 0 row
                     (insert_head table ignoreInsert));
      WriteString (ssql +:+ ");" +:+ nl);;
      rows_loop err table ignoreInsert columnTypes values'
  end.

(** Lines 284-297: [for lineRows.Next() { .. Scan .. }]; the pair is the
    rows gathered and the variable [err] after the last assignment. *)
Fixpoint scan_loop (pending : list (result (list GoValue)))
    (values : list (list GoValue)) (err : option error)
  : ctl (list (list GoValue) * option error) :=
  match pending with
  | [] => Next (values, err)
  | Failed e :: _ => Return (Some e)
  | Ok row :: pending' => scan_loop pending' (values ++ [row]) None
  end.

Definition banner : string := "-- ----------------------------" +:+ nl.

(** Lines 258-395. *)
Definition writeTableData (db : DB) (table : string) (ignoreInsert : bool) : M unit :=
  WriteString banner;;
  WriteString (Sprintf ("-- Records of %s" +:+ nl) (VString table));;
  WriteString banner;;
  match Query db (Sprintf "SELECT * FROM `%s`" (VString table)) with
  | Failed e => return_ (Some e)
  | Ok lineRows =>
      match Columns lineRows with
      | Failed e => return_ (Some e)
      | Ok columns =>
          match ColumnTypes lineRows with
          | Failed e => return_ (Some e)
          | Ok columnTypes =>
              '(values, err) ← lift (scan_loop (scans lineRows) [] None);
              rows_loop err table ignoreInsert columnTypes values;;
              WriteString (nl +:+ nl);;
              return_ None
          end
      end
  end.

(** Lines 207-216. *)
Definition getCreateTableSQL (db : DB) (table : string) : result string :=
  match QueryRow_string2 db (Sprintf "SHOW CREATE TABLE `%s`" (VString table)) with
  | Failed e => Failed e
  | Ok (_, createTableSQL) =>
      Ok (GoString.Replace createTableSQL "CREATE TABLE" "CREATE TABLE IF NOT EXISTS" 1)
  end.

(** Lines 226-233: the scan loop of [getAllTables]. *)
Fixpoint tables_loop (pending : list (result string)) (tables : list string)
  : result (list string) :=
  match pending with
  | [] => Ok tables
  | Failed e :: _ => Failed e
  | Ok table :: pending' => tables_loop pending' (tables ++ [table])
  end.

(** Lines 218-235. *)
Definition getAllTables (db : DB) : result (list string) :=
  match Query_string db "SHOW TABLES" with
  | Failed e => Failed e
  | Ok rows => tables_loop (scans rows) []
  end.

(** Lines 237-254. *)
Definition writeTableStruct (db : DB) (table : string) : M unit :=
  WriteString banner;;
  WriteString (Sprintf ("-- Table structure for %s" +:+ nl) (VString table));;
  WriteString banner;;
  match getCreateTableSQL db table with
  | Failed e => return_ (Some e)
  | Ok createTableSQL =>
      WriteString createTableSQL;;
      WriteString ";";;
      WriteString (nl +:+ nl);;
      WriteString (nl +:+ nl);;
      return_ None
  end.

(** Lines 156-159: [bMap], filled from the exclusion list. *)
Definition ignore_map (ignoreTables : list string) : gmap string bool :=
  foldl (fun bMap elementB => <[elementB := true]> bMap) ∅ ignoreTables.

(** Lines 160-166: the tables of [tmp] that [bMap] does not hold; a
    missing key reads as [false]. *)
Definition exclude_tables (ignoreTables tmp : list string) : list string :=
  let bMap := ignore_map ignoreTables in
  foldl (fun result elementA =>
           if negb (default false (bMap !! elementA)) then result ++ [elementA]
           else result) [] tmp.

(** Lines 106-109: the options after the default on [isAllTable]. *)
Definition effective_options (opts : list DumpOption) : dumpOption :=
  let o := apply_options opts in
  if (length (tables o) =? 0)%nat then WithAllTable o else o.

(** Lines 147-172: the tables to dump. *)
Definition resolve_tables (o : dumpOption) (db : DB) : result (list string) :=
  if isAllTable o then
    match getAllTables db with
    | Failed e => Failed e
    | Ok tmp =>
        if (0 <? length (ignoreTables o))%nat then Ok (exclude_tables (ignoreTables o) tmp)
        else Ok tmp
    end
  else Ok (tables o).

(** Lines 176-195: the body of the loop over the tables. *)
Definition dump_table (o : dumpOption) (db : DB) (table : string) : M unit :=
  (if isDropTable o
   then WriteString (Sprintf ("DROP TABLE IF EXISTS `%s`;" +:+ nl) (VString table))
   else mret tt);;
  err ← call (writeTableStruct db table);
  match err with
  | Some e => return_ (Some e)
  | None =>
      if isData o then
        err ← call (writeTableData db table (isIgnoreInsert o));
        match err with
        | Some e => return_ (Some e)
        | None => mret tt
        end
      else mret tt
  end.

(** Lines 175-196: [for _, table := range tables]. *)
Fixpoint tables_dump (o : dumpOption) (db : DB) (tables : list string) : M unit :=
  match tables with
  | [] => mret tt
  | table :: tables' => dump_table o db table;; tables_dump o db tables'
  end.

(** Lines 88-205. *)
Definition Dump (env : Env) (dsn : string) (opts : list DumpOption) : M unit :=
  let o := effective_options opts in
  WriteString banner;;
  WriteString ("-- MySQL Database Dump" +:+ nl);;
  WriteString ("-- Start Time: " +:+ start_Format env +:+ nl);;
  WriteString banner;;
  WriteString (nl +:+ nl);;
  match sql_Open env dsn with
  | Failed e => return_ (Some e)
  | Ok db =>
      match GetDBNameFromDSN env dsn with
      | Failed e => return_ (Some e)
      | Ok dbName =>
          match Exec db (Sprintf "USE `%s`" (VString dbName)) with
          | Some e => return_ (Some e)
          | None =>
              match resolve_tables o db with
              | Failed e => return_ (Some e)
              | Ok tables =>
                  tables_dump o db tables;;
                  WriteString banner;;
                  WriteString ("-- Dumped by mysqldump" +:+ nl);;
                  WriteString ("-- Cost Time: " +:+ since_String env +:+ nl);;
                  WriteString banner;;
                  return_ None
              end
          end
      end
  end.



(** A run of [Dump] from an empty buffer: the text that reaches the sink
    and how the call ends. *)
Definition run_Dump (env : Env) (dsn : string) (opts : list DumpOption)
  : string * ctl unit :=
  Dump env dsn opts "".

End Package.

(** ** Reference definitions the properties are stated with *)

(** Every non-overlapping instance of [old], leftmost first, replaced by
    [new]; [skip] bytes of an instance just replaced are still to be
    passed over.  For a non-empty [old]. *)
Fixpoint replace_every (old new : string) (skip : nat) (s : string) : string :=
  match s with
  | "" => ""
  | String c s' =>
      match skip with
      | S k => replace_every old new k s'
      | O =>
          if GoString.HasPrefix s old
          then new +:+ replace_every old new (GoString.len old - 1) s'
          else String c (replace_every old new 0 s')
      end
  end.

(** Every single quote doubled, every other byte as it is. *)
Fixpoint double_quotes (s : string) : string :=
  match s with
  | "" => ""
  | String c s' =>
      if Ascii.eqb c "'" then String "'" (String "'" (double_quotes s'))
      else String c (double_quotes s')
  end.

(** Every space (U+0020) removed, every other byte as it is. *)
Fixpoint strip_spaces (s : string) : string :=
  match s with
  | "" => ""
  | String c s' =>
      if Ascii.eqb c " " then strip_spaces s' else String c (strip_spaces s')
  end.

(** The tables of [all] that the exclusion list does not name, in the
    order of [all]. *)
Definition without (ignoreTables all : list string) : list string :=
  filter (fun t => t ∉ ignoreTables) all.

(** The value categories of the specification and its table from
    normalized type names to categories. *)
Inductive ValueCategory : Type :=
| Integer | Float | Decimal | Date | DateTime | Timestamp | TimeOfDay | YearNumber
| Text | Binary | EnumOrSet | Boolean | Json.

Definition classify (name : string) : option ValueCategory :=
  if is_case name ["TINYINT"; "SMALLINT"; "MEDIUMINT"; "INT"; "INTEGER"; "BIGINT"] then Some Integer
  else if is_case name ["FLOAT"; "DOUBLE"] then Some Float
  else if is_case name ["DECIMAL"; "DEC"] then Some Decimal
  else if is_case name ["DATE"] then Some Date
  else if is_case name ["DATETIME"] then Some DateTime
  else if is_case name ["TIMESTAMP"] then Some Timestamp
  else if is_case name ["TIME"] then Some TimeOfDay
  else if is_case name ["YEAR"] then Some YearNumber
  else if is_case name ["CHAR"; "VARCHAR"; "TINYTEXT"; "TEXT"; "MEDIUMTEXT"; "LONGTEXT"] then Some Text
  else if is_case name ["BIT"; "BINARY"; "VARBINARY"; "TINYBLOB"; "BLOB"; "MEDIUMBLOB"; "LONGBLOB"] then Some Binary
  else if is_case name ["ENUM"; "SET"] then Some EnumOrSet
  else if is_case name ["BOOL"; "BOOLEAN"] then Some Boolean
  else if is_case name ["JSON"] then Some Json
  else None.

(** The upper-case letter of a lower-case ASCII letter. *)
Definition upper (c : ascii) : ascii :=
  let n := GoString.byte_val c in
  if (97 <=? n) && (n <=? 122) then ascii_of_N (Z.to_N (n - 32)) else c.

(** [prefix] starts [s], letter case apart. *)
Fixpoint HasPrefix_fold (s prefix : string) {struct prefix} : bool :=
  match prefix, s with
  | "", _ => true
  | String p prefix', String c s' =>
      if Ascii.eqb (upper p) (upper c) then HasPrefix_fold s' prefix' else false
  | String _ _, "" => false
  end.

(** Every instance of [word], in any letter case, removed. *)
Fixpoint strip_word_fold (word : string) (skip : nat) (s : string) : string :=
  match s with
  | "" => ""
  | String c s' =>
      match skip with
      | S k => strip_word_fold word k s'
      | O =>
          if HasPrefix_fold s word then strip_word_fold word (GoString.len word - 1) s'
          else String c (strip_word_fold word 0 s')
      end
  end.

(** Every white-space byte (space, tab, line feed, vertical tab, form
    feed, carriage return) removed. *)
Fixpoint strip_whitespace (s : string) : string :=
  match s with
  | "" => ""
  | String c s' =>
      if Ascii.is_space c then strip_whitespace s' else String c (strip_whitespace s')
  end.

(** The normalization as the specification words it: the qualifier
    UNSIGNED removed whatever the case of its letters, and all white space
    removed. *)
Definition normalize_claimed (name : string) : string :=
  strip_whitespace (strip_word_fold "UNSIGNED" 0 name).

(** The number a byte sequence spells in decimal. *)
Definition digit_val (c : ascii) : option Z :=
  let n := GoString.byte_val c in
  if (48 <=? n) && (n <=? 57) then Some (n - 48) else None.

Fixpoint digits_value (acc : Z) (s : string) : option Z :=
  match s with
  | "" => Some acc
  | String c s' =>
      match digit_val c with
      | Some d => digits_value (10 * acc + d) s'
      | None => None
      end
  end.

(** An integer numeral: an optional minus sign, then one digit or more. *)
Definition numeral_value (s : string) : option Z :=
  match s with
  | "" => None
  | String c s' =>
      if Ascii.eqb c "-" then
        match s' with
        | "" => None
        | String _ _ => Z.opp <$> digits_value 0 s'
        end
      else digits_value 0 s
  end.

(** The numeral is the shortest one of its value: no zero in front of
    another digit, no minus sign in front of a zero. *)
Definition canonical (s : string) : bool :=
  match s with
  | String c (String d _) =>
      if Ascii.eqb c "-" then negb (Ascii.eqb d "0") else negb (Ascii.eqb c "0")
  | _ => true
  end.

(** A digit string that does not start with a zero in front of another
    digit. *)
Definition no_lead_zero (s : string) : bool :=
  match s with
  | String c (String _ _) => negb (Ascii.eqb c "0")
  | _ => true
  end.

Fixpoint before_dot (s : string) : string :=
  match s with
  | "" => ""
  | String c s' => if Ascii.eqb c "." then "" else String c (before_dot s')
  end.

Fixpoint after_dot (s : string) : string :=
  match s with
  | "" => ""
  | String c s' => if Ascii.eqb c "." then s' else after_dot s'
  end.

(** A numeral with a fraction: the pair [(n, k)] stands for [n / 10^k]. *)
Definition decimal_value (s : string) : option (Z * Z) :=
  let '(neg, body) :=
    match s with
    | String c s' => if Ascii.eqb c "-" then (true, s') else (false, s)
    | "" => (false, "")
    end in
  match before_dot body with
  | "" => None
  | String _ _ =>
      n ← digits_value 0 (before_dot body +:+ after_dot body);
      Some (if neg : bool then - n else n, Z.of_nat (GoString.len (after_dot body)))
  end.

(** The exact value of a finite float: [(m, e)] stands for [m * 2^e]. *)
Definition float_value (x : float) : option (Z * Z) :=
  match Prim2SF x with
  | S754_zero _ => Some (0, 0)
  | S754_finite neg m e => Some (if neg then Z.neg m else Z.pos m, e)
  | _ => None
  end.

(** [n / 10^k = m * 2^e] *)
Definition same_number (d b : Z * Z) : bool :=
  let '(n, k) := d in
  let '(m, e) := b in
  if 0 <=? e then n =? m * 2 ^ e * 10 ^ k else n * 2 ^ (- e) =? m * 10 ^ k.

(** The byte sequence [bs] and the native number [v] are the same logical
    value. *)
Definition spells (bs : string) (v : GoValue) : bool :=
  match v with
  | VInt64 n | VUint64 n =>
      match numeral_value bs with
      | Some n' => n' =? n
      | None => false
      end
  | VFloat32 x | VFloat64 x =>
      match decimal_value bs, float_value x with
      | Some d, Some b => same_number d b
      | _, _ => false
      end
  | _ => false
  end.

(** The statement of one row, from the literals of its cells. *)
Definition insert_statement (table : string) (ignoreInsert : bool) (lits : list string)
  : string :=
  (if ignoreInsert then "INSERT IGNORE INTO `" else "INSERT INTO `")
    +:+ table +:+ "` VALUES (" +:+ String.concat "," lits +:+ ");" +:+ nl.

Definition concat_all (ls : list string) : string := foldr String.append "" ls.

(** The comment lines [writeTableData] starts with. *)
Definition records_header (table : string) : string :=
  banner +:+ "-- Records of " +:+ table +:+ nl +:+ banner.

(** How a block ends when it does not fall through. *)
Inductive halt : Type :=
| HReturn (e : option error)
| HPanic (reason : string).

Definition halted {A : Type} (h : halt) : ctl A :=
  match h with
  | HReturn e => Return e
  | HPanic r => Panic r
  end.

(** The literal of one cell: the bare word NULL for nil, else what the
    column's category gives for the value. *)
Definition cell_literal (fmt_other : ascii -> GoValue -> string) (tys : list string)
    (i : nat) (col : GoValue) : option string :=
  match col with
  | VNil => Some "NULL"
  | _ =>
      match tys !! i with
      | Some ty =>
          match render_value fmt_other None (normalize ty) col with
          | Next lit => Some lit
          | _ => None
          end
      | None => None
      end
  end.

(** The literals of the cells [cols], which start at column [i]. *)
Fixpoint literals_from (fmt_other : ascii -> GoValue -> string) (tys : list string)
    (i : nat) (cols : list GoValue) : option (list string) :=
  match cols with
  | [] => Some []
  | col :: cols' =>
      match cell_literal fmt_other tys i col, literals_from fmt_other tys (S i) cols' with
      | Some lit, Some lits => Some (lit :: lits)
      | _, _ => None
      end
  end.

Definition row_literals (fmt_other : ascii -> GoValue -> string) (tys : list string)
    (row : list GoValue) : option (list string) :=
  literals_from fmt_other tys 0 row.

(** The query of [writeTableData] for [table] answers with the column
    types [tys] and the rows [values], every scan succeeding. *)
Definition table_rows (fmt_other : ascii -> GoValue -> string) (db : DB) (table : string)
    (tys : list string) (values : list (list GoValue)) : Prop :=
  exists lineRows columns,
    Query db (Sprintf fmt_other "SELECT * FROM `%s`" (VString table)) = Ok lineRows /\
    Columns lineRows = Ok columns /\
    ColumnTypes lineRows = Ok tys /\
    scans lineRows = Ok <$> values.

(** [Dump] gets as far as the table list with the handle [db]. *)
Definition connected (fmt_other : ascii -> GoValue -> string) (env : Env) (dsn : string)
    (db : DB) : Prop :=
  sql_Open env dsn = Ok db /\
  exists dbName, GetDBNameFromDSN env dsn = Ok dbName /\
                 Exec db (Sprintf fmt_other "USE `%s`" (VString dbName)) = None.

(** The text [writeTableStruct] writes for a table. *)
Definition structure_text (table createTableSQL : string) : string :=
  banner +:+ "-- Table structure for " +:+ table +:+ nl +:+ banner
    +:+ createTableSQL +:+ ";" +:+ nl +:+ nl +:+ nl +:+ nl.

(** The statement written in front of a table when tables are dropped. *)
Definition drop_text (o : dumpOption) (table : string) : string :=
  if isDropTable o then "DROP TABLE IF EXISTS `" +:+ table +:+ "`;" +:+ nl else "".

(** The comment lines a dump starts and ends with. *)
Definition dump_header (env : Env) : string :=
  banner +:+ "-- MySQL Database Dump" +:+ nl +:+ "-- Start Time: " +:+ start_Format env
    +:+ nl +:+ banner +:+ nl +:+ nl.

Definition dump_footer (env : Env) : string :=
  banner +:+ "-- Dumped by mysqldump" +:+ nl +:+ "-- Cost Time: " +:+ since_String env
    +:+ nl +:+ banner.

(** ** Inputs for the closed examples *)

(** An instance of the part of [fmt] left open, for the closed examples
    below; none of them reaches it. *)
Definition fmt_unused : ascii -> GoValue -> string := fun _ _ => "".

(** A database and its surroundings: [SHOW TABLES] lists the tables
    [t], [u] and [g]; a fourth table [c] has a structure statement with a
    column comment. *)
Definition shop_db : DB :=
  mkDB
    (fun _ => None)
    (fun _ => Ok (mkRows (Ok ["Tables_in_shop"]) (Ok ["VARCHAR"]) [Ok "t"; Ok "u"; Ok "g"]))
    (fun q =>
       if String.eqb q "SHOW CREATE TABLE `t`"
       then Ok ("t", "CREATE TABLE `t` (`id` int, `d` date)")
       else if String.eqb q "SHOW CREATE TABLE `u`"
       then Ok ("u", "CREATE TABLE `u` (`id` int, `name` varchar(10))")
       else if String.eqb q "SHOW CREATE TABLE `g`"
       then Ok ("g", "CREATE TABLE `g` (`id` int, `shape` geometry)")
       else if String.eqb q "SHOW CREATE TABLE `c`"
       then Ok ("c", "CREATE TABLE `c` (`n` int COMMENT 'CREATE TABLE')")
       else Failed (GoError "Error 1146: Table doesn't exist"))
    (fun q =>
       if String.eqb q "SELECT * FROM `t`"
       then Ok (mkRows (Ok ["id"; "d"]) (Ok ["INT"; "DATE"])
                  [Ok [VInt64 1; VBytes "2024-05-17"]; Ok [VInt64 2; VNil]])
       else if String.eqb q "SELECT * FROM `u`"
       then Ok (mkRows (Ok ["id"; "name"]) (Ok ["INT"; "VARCHAR"])
                  [Ok [VInt64 1; VBytes "O'Brien"]; Ok [VNil; VBytes "x"]])
       else if String.eqb q "SELECT * FROM `g`"
       then Ok (mkRows (Ok ["id"; "shape"]) (Ok ["INT"; "GEOMETRY"])
                  [Ok [VInt64 1; VNil]; Ok [VInt64 2; VBytes "POINT"]])
       else Failed (GoError "Error 1146: Table doesn't exist")).

Definition shop_env : Env :=
  mkEnv "2024-05-17 10:00:00" "12ms" (fun _ => Ok shop_db) (fun _ => Ok "shop").

(** What a dump with data holds for table [u]. *)
Definition shop_u_text : string :=
  structure_text "u" "CREATE TABLE IF NOT EXISTS `u` (`id` int, `name` varchar(10))"
    +:+ records_header "u"
    +:+ insert_statement "u" false ["1"; "'O''Brien'"]
    +:+ insert_statement "u" false ["NULL"; "'x'"]
    +:+ nl +:+ nl.

(** ** Reference definitions for the further properties *)

(** The options of the package by name, and the function each stands
    for. *)
Inductive OptionName : Type :=
| ODropTable
| OData
| OIgnoreInsertTable
| OIgnoreTables (ts : list string)
| OTables (ts : list string)
| OAllTable
| OWriter (w : nat).

#[global] Instance OptionName_eq_dec : EqDecision OptionName.
Proof. solve_decision. Defined.

Definition option_of (name : OptionName) : DumpOption :=
  match name with
  | ODropTable => WithDropTable
  | OData => WithData
  | OIgnoreInsertTable => WithIgnoreInsertTable
  | OIgnoreTables ts => WithIgnoreTables ts
  | OTables ts => WithTables ts
  | OAllTable => WithAllTable
  | OWriter w => WithWriter w
  end.

Definition given_tables (name : OptionName) : option (list string) :=
  match name with OTables ts => Some ts | _ => None end.

Definition given_ignoreTables (name : OptionName) : option (list string) :=
  match name with OIgnoreTables ts => Some ts | _ => None end.

Definition given_writer (name : OptionName) : option nat :=
  match name with OWriter w => Some w | _ => None end.

(** The argument of the last option of one kind in a list of options. *)
Definition last_given {A : Type} (pick : OptionName -> option A)
    (names : list OptionName) : option A :=
  last (omap pick names).

(** A reader of a quoted SQL string: after the opening quote, two quotes
    in a row stand for one, a single quote ends the string and nothing may
    follow it. *)
Fixpoint read_quoted_body (s : string) : option string :=
  match s with
  | "" => None
  | String c r =>
      if Ascii.eqb c "'" then
        match r with
        | "" => Some ""
        | String d r' =>
            if Ascii.eqb d "'" then String "'" <$> read_quoted_body r' else None
        end
      else String c <$> read_quoted_body r
  end.

Definition read_text_literal (lit : string) : option string :=
  match lit with
  | String c r => if Ascii.eqb c "'" then read_quoted_body r else None
  | "" => None
  end.

(** A reader of a hexadecimal literal [0x...] with upper-case digits. *)
Definition hex_val (c : ascii) : option Z :=
  let n := GoString.byte_val c in
  if (48 <=? n) && (n <=? 57) then Some (n - 48)
  else if (65 <=? n) && (n <=? 70) then Some (n - 55)
  else None.

Fixpoint unhex (s : string) : option string :=
  match s with
  | "" => Some ""
  | String a (String b r) =>
      match hex_val a, hex_val b, unhex r with
      | Some hi, Some lo, Some rest => Some (String (ascii_of_N (Z.to_N (16 * hi + lo))) rest)
      | _, _, _ => None
      end
  | String _ "" => None
  end.

Definition read_hex_literal (lit : string) : option string :=
  match lit with
  | String c (String d r) =>
      if Ascii.eqb c "0" && Ascii.eqb d "x" then unhex r else None
  | _ => None
  end.

(** The byte [c] occurs in [s]. *)
Fixpoint has_byte (c : ascii) (s : string) : bool :=
  match s with
  | "" => false
  | String d s' => Ascii.eqb d c || has_byte c s'
  end.

(** A statement block only adds to what the buffer holds. *)
Definition appends {A : Type} (m : M A) : Prop :=
  forall buf, exists written, fst (m buf) = buf +:+ written.

(** What a dump holds for one table: the drop statement when asked for,
    the structure, and with data the statements of the rows. *)
Definition table_text (o : dumpOption) (table sql : string) (litss : list (list string))
  : string :=
  drop_text o table +:+ structure_text table sql
    +:+ (if isData o
         then records_header table
                +:+ concat_all (insert_statement table (isIgnoreInsert o) <$> litss)
                +:+ nl +:+ nl
         else "").

(** The query texts the package sends for a table. *)
Definition show_create_query (table : string) : string :=
  "SHOW CREATE TABLE `" +:+ table +:+ "`".

Definition select_query (table : string) : string :=
  "SELECT * FROM `" +:+ table +:+ "`".

(** Table [t] can be dumped: its structure statement is [fst info], and
    with data its rows render to the literals [snd info]. *)
Definition table_dumps (fmt_other : ascii -> GoValue -> string) (o : dumpOption) (db : DB)
    (t : string) (info : string * list (list string)) : Prop :=
  getCreateTableSQL fmt_other db t = Ok (fst info) /\
  (isData o = true ->
   exists tys values,
     table_rows fmt_other db t tys values /\
     mapM (row_literals fmt_other tys) values = Some (snd info)).

(** The text of the tables of a dump, one after the other. *)
Definition tables_text (o : dumpOption) (ts : list string)
    (infos : list (string * list (list string))) : string :=
  concat_all (zip_with (fun t info => table_text o t (fst info) (snd info)) ts infos).

Definition use_query (dbName : string) : string := "USE `" +:+ dbName +:+ "`".

(** [SHOW TABLES] fails with [e]: the query itself, or the scan of one of
    its rows. *)
Definition show_tables_fails (db : DB) (e : error) : Prop :=
  Query_string db "SHOW TABLES" = Failed e \/
  exists rows ts rest,
    Query_string db "SHOW TABLES" = Ok rows /\
    scans rows = (Ok <$> ts) ++ Failed e :: rest.

(** A step of [Dump] before the loop over the tables fails with [e]:
    opening the handle, reading the database name, [USE], or, when all
    tables are asked for, listing them. *)
Definition fails_before_tables (env : Env) (dsn : string) (o : dumpOption) (e : error)
  : Prop :=
  sql_Open env dsn = Failed e \/
  exists db,
    sql_Open env dsn = Ok db /\
    (GetDBNameFromDSN env dsn = Failed e \/
     exists dbName,
       GetDBNameFromDSN env dsn = Ok dbName /\
       (Exec db (use_query dbName) = Some e \/
        (Exec db (use_query dbName) = None /\ isAllTable o = true /\
         show_tables_fails db e))).

(** Reading the rows of [table] fails with [e]: the query, the column
    names, the column types, or the scan of one of the rows. *)
Definition select_fails (db : DB) (table : string) (e : error) : Prop :=
  match Query db (select_query table) with
  | Failed e' => e' = e
  | Ok lineRows =>
      match Columns lineRows, ColumnTypes lineRows with
      | Failed e', _ => e' = e
      | Ok _, Failed e' => e' = e
      | Ok _, Ok _ =>
          exists values rest, scans lineRows = (Ok <$> values) ++ Failed e :: rest
      end
  end.

(** Two handles answer alike what a dump with the options [o] asks about
    table [t]. *)
Definition same_answers (o : dumpOption) (db1 db2 : DB) (t : string) : Prop :=
  QueryRow_string2 db1 (show_create_query t) = QueryRow_string2 db2 (show_create_query t) /\
  (isData o = true -> Query db1 (select_query t) = Query db2 (select_query t)).

(** The surroundings [env] with [sql.Open] returning the handle [db]. *)
Definition with_db (env : Env) (db : DB) : Env :=
  mkEnv (start_Format env) (since_String env) (fun _ => Ok db) (GetDBNameFromDSN env).

(** [s] is the number [value] written with exactly [width] digits. *)
Definition field (width : nat) (value : Z) (s : string) : Prop :=
  GoString.len s = width /\ digits_value 0 s = Some value.

(** A time whose fields are what Go's calendar gives and whose year has
    no more than four digits. *)
Definition in_layout (t : Time) : Prop :=
  0 <= Year t <= 9999 /\ 1 <= Month t <= 12 /\ 1 <= Day t <= 31 /\
  0 <= Hour t <= 23 /\ 0 <= Minute t <= 59 /\ 0 <= Second t <= 59.

(** [k] is an integer nearest to [m * 2^e * 10^6]. *)
Definition nearest_millionth (k m e : Z) : Prop :=
  2 * Z.abs (k * 2 ^ Z.max 0 (- e) - m * 1000000 * 2 ^ Z.max 0 e) <= 2 ^ Z.max 0 (- e).

(** A block that ends without a panic. *)
Definition quiet {A : Type} (c : ctl A) : Prop :=
  match c with
  | Panic _ => False
  | _ => True
  end.

(** ** Inputs for the closed examples of the further properties *)

(** The database [shop_db] over a connection that breaks: the listing of
    the tables fails at its second row and the rows of [u] at their
    second row.  It also holds an empty table [e] with a column of a type
    outside the category table, and a temporary table [tmp]. *)
Definition flaky_db : DB :=
  mkDB
    (Exec shop_db)
    (fun _ => Ok (mkRows (Ok ["Tables_in_shop"]) (Ok ["VARCHAR"])
                    [Ok "t"; Failed (GoError "invalid connection")]))
    (fun q =>
       if String.eqb q "SHOW CREATE TABLE `tmp`"
       then Ok ("tmp", "CREATE TEMPORARY TABLE `tmp` (`n` int)")
       else QueryRow_string2 shop_db q)
    (fun q =>
       if String.eqb q "SELECT * FROM `u`"
       then Ok (mkRows (Ok ["id"; "name"]) (Ok ["INT"; "VARCHAR"])
                  [Ok [VInt64 1; VBytes "x"]; Failed (GoError "invalid connection")])
       else if String.eqb q "SELECT * FROM `e`"
       then Ok (mkRows (Ok ["shape"]) (Ok ["GEOMETRY"]) [])
       else Query shop_db q).

Definition flaky_env : Env := with_db shop_env flaky_db.

(** ** Facts about Go strings *)

Section StringFacts.
Import GoString.

Lemma sapp_nil_l (s : string) : "" +:+ s = s.
Proof. reflexivity. Qed.

Lemma sapp_cons (c : ascii) (s t : string) : String c s +:+ t = String c (s +:+ t).
Proof. reflexivity. Qed.

Lemma sapp_nil_r (s : string) : s +:+ "" = s.
Proof. induction s as [|c s IH]; [reflexivity|]. now rewrite sapp_cons, IH. Qed.

Lemma sapp_assoc (s t u : string) : (s +:+ t) +:+ u = s +:+ t +:+ u.
Proof. induction s as [|c s IH]; [reflexivity|]. now rewrite !sapp_cons, IH. Qed.

Lemma len_app (s t : string) : len (s +:+ t) = (len s + len t)%nat.
Proof. induction s as [|c s IH]; [reflexivity|]. rewrite sapp_cons. simpl. now rewrite <- IH. Qed.

Lemma take_drop (n : nat) (s : string) : take n s +:+ drop n s = s.
Proof.
  revert s. induction n as [|n IH]; intros [|c s]; try reflexivity.
  simpl. now rewrite sapp_cons, IH.
Qed.

Lemma take_len_app (p r : string) : take (len p) (p +:+ r) = p.
Proof. induction p as [|c p IH]; [now destruct r|]. rewrite sapp_cons. simpl. now rewrite IH. Qed.

Lemma drop_len_app (p r : string) : drop (len p) (p +:+ r) = r.
Proof. induction p as [|c p IH]; [now destruct r|]. rewrite sapp_cons. simpl. exact IH. Qed.

Lemma drop_add (n m : nat) (s : string) : drop (n + m) s = drop m (drop n s).
Proof.
  revert s. induction n as [|n IH]; intros s; [reflexivity|].
  destruct s as [|c s]; [now destruct m|]. simpl. apply IH.
Qed.

Lemma len_drop (n : nat) (s : string) : len (drop n s) = (len s - n)%nat.
Proof.
  revert s. induction n as [|n IH]; intros [|c s]; simpl; try reflexivity.
  apply IH.
Qed.

Lemma HasPrefix_app (p r : string) : HasPrefix (p +:+ r) p = true.
Proof.
  induction p as [|c p IH]; [reflexivity|].
  rewrite sapp_cons. simpl. now rewrite Ascii.eqb_refl.
Qed.

Lemma HasPrefix_split (s p : string) :
  HasPrefix s p = true -> s = p +:+ drop (len p) s.
Proof.
  revert s. induction p as [|c p IH]; intros s H; [now destruct s|].
  destruct s as [|d s]; [discriminate|]. simpl in H.
  destruct (Ascii.eqb c d) eqn:E; [|discriminate].
  apply Ascii.eqb_eq in E as ->. simpl. rewrite sapp_cons. f_equal. now apply IH.
Qed.

Lemma HasPrefix_len (s p : string) : HasPrefix s p = true -> (len p <= len s)%nat.
Proof.
  intros H. apply HasPrefix_split in H. rewrite H, len_app. lia.
Qed.

(** [Index] finds the first offset at which [substr] starts. *)
Lemma Index_Some (s substr : string) (j : nat) :
  Index s substr = Some j ->
  HasPrefix (drop j s) substr = true /\ (j + len substr <= len s)%nat /\
  forall k, (k < j)%nat -> HasPrefix (drop k s) substr = false.
Proof.
  revert j. induction s as [|c s IH]; intros j; simpl Index.
  - destruct (HasPrefix "" substr) eqn:E; [|discriminate].
    intros [= <-]. split; [exact E|]. split; [apply (HasPrefix_len _ _ E)|lia].
  - destruct (HasPrefix (String c s) substr) eqn:E.
    + intros [= <-]. split; [exact E|]. split; [apply (HasPrefix_len _ _ E)|lia].
    + destruct (Index s substr) as [i|] eqn:Ei; [|discriminate].
      intros [= <-]. destruct (IH i eq_refl) as (H1 & H2 & H3).
      split; [exact H1|]. split; [unfold len in *; simpl; lia|].
      intros [|k] Hk; [exact E|]. simpl. apply H3. lia.
Qed.

Lemma Index_first (s substr : string) (j : nat) :
  HasPrefix (drop j s) substr = true -> (j <= len s)%nat ->
  (forall k, (k < j)%nat -> HasPrefix (drop k s) substr = false) ->
  Index s substr = Some j.
Proof.
  revert j. induction s as [|c s IH]; intros j Hj Hle Hno.
  - assert (j = 0)%nat as -> by (unfold len in Hle; simpl in Hle; lia).
    simpl in *. now rewrite Hj.
  - destruct j as [|j].
    + simpl in Hj. simpl Index. now rewrite Hj.
    + simpl Index. pose proof (Hno 0%nat ltac:(lia)) as H0. simpl in H0. rewrite H0.
      rewrite (IH j); [reflexivity|exact Hj|unfold len in *; simpl in Hle; lia|].
      intros k Hk. apply (Hno (S k)). lia.
Qed.

Lemma Index_None (s substr : string) :
  Index s substr = None -> forall k, HasPrefix (drop k s) substr = false.
Proof.
  induction s as [|c s IH]; simpl Index.
  - destruct (HasPrefix "" substr) eqn:E; [discriminate|]. intros _ [|k]; exact E.
  - destruct (HasPrefix (String c s) substr) eqn:E; [discriminate|].
    destruct (Index s substr) eqn:Ei; [discriminate|].
    intros _ [|k]; [exact E|]. simpl. now apply IH.
Qed.

End StringFacts.

(** ** [strings.Replace] against its reference *)

Section ReplaceFacts.
Import GoString.

Lemma replace_every_skip (old new : string) (k : nat) (s : string) :
  replace_every old new k s = replace_every old new 0 (drop k s).
Proof.
  revert k. induction s as [|c s IH]; intros [|k]; try reflexivity.
  simpl drop. rewrite <- IH. reflexivity.
Qed.

Lemma replace_every_None (old new s : string) :
  Index s old = None -> replace_every old new 0 s = s.
Proof.
  induction s as [|c s IH]; [reflexivity|]. simpl Index.
  destruct (HasPrefix (String c s) old) eqn:E; [discriminate|].
  destruct (Index s old) eqn:Ei; [discriminate|]. intros _.
  simpl. rewrite E. f_equal. now apply IH.
Qed.

Lemma replace_every_Some (old new s : string) (j : nat) :
  old <> "" -> Index s old = Some j ->
  replace_every old new 0 s =
    take j s +:+ new +:+ replace_every old new 0 (drop (j + len old) s).
Proof.
  intros Hold. revert j. induction s as [|c s IH]; intros j; simpl Index.
  - destruct old; [congruence|]. discriminate.
  - destruct (HasPrefix (String c s) old) eqn:E.
    + intros [= <-]. simpl replace_every. rewrite E. rewrite replace_every_skip.
      destruct old as [|d old]; [congruence|]. unfold len. simpl.
      now rewrite Nat.sub_0_r.
    + destruct (Index s old) as [i|] eqn:Ei; [|discriminate]. intros [= <-].
      simpl replace_every. rewrite E. rewrite (IH i eq_refl). reflexivity.
Qed.

(** The count-then-copy loop of Go computes the left-to-right scan. *)
Lemma replace_loop_count (old new : string) (fuel : nat) :
  old <> "" ->
  forall (first : bool) (s : string), (len s <= fuel)%nat ->
  replace_loop (count_loop fuel s old) first s old new = replace_every old new 0 s.
Proof.
  intros Hold. induction fuel as [|fuel IH]; intros first s Hlen.
  - destruct s; [reflexivity|]. unfold len in Hlen. simpl in Hlen. lia.
  - simpl count_loop. destruct (Index s old) as [j|] eqn:Ej.
    + simpl replace_loop. destruct old as [|d old]; [congruence|].
      rewrite Ej. rewrite IH.
      * symmetry. now apply replace_every_Some.
      * apply Index_Some in Ej as (_ & Hj & _). rewrite len_drop.
        unfold len in *. simpl in *. lia.
    + simpl. symmetry. now apply replace_every_None.
Qed.

Lemma Replace_all (s old new : string) (n : Z) :
  old <> "" -> old <> new -> n < 0 ->
  Replace s old new n = replace_every old new 0 s.
Proof.
  intros Hold Hne Hn. unfold Replace.
  rewrite bool_decide_eq_false_2 by exact Hne.
  replace (n =? 0) with false by (symmetry; apply Z.eqb_neq; lia).
  replace (n <? 0) with true by (symmetry; apply Z.ltb_lt; lia).
  simpl orb. cbv zeta.
  assert (Count s old = count_loop (len s) s old) as -> by (destruct old; [congruence|reflexivity]).
  destruct (count_loop (len s) s old =? 0)%nat eqn:E.
  - apply Nat.eqb_eq in E.
    rewrite <- (replace_loop_count old new (len s) Hold true s) by lia.
    now rewrite E.
  - now apply replace_loop_count.
Qed.

(** With [n = 1] only the first instance is replaced; what follows it is
    copied as it is. *)
Lemma Replace_once (s old new : string) (j : nat) :
  old <> "" -> old <> new -> Index s old = Some j ->
  Replace s old new 1 = take j s +:+ new +:+ drop (j + len old) s.
Proof.
  intros Hold Hne Hj. unfold Replace.
  rewrite bool_decide_eq_false_2 by exact Hne. simpl orb. cbv zeta.
  assert (Count s old = count_loop (len s) s old) as -> by (destruct old; [congruence|reflexivity]).
  assert (exists m, count_loop (len s) s old = S m) as [m Hm].
  { pose proof (Index_Some _ _ _ Hj) as (_ & Hlen & _).
    destruct (len s) as [|f] eqn:El.
    - destruct old; [congruence|]. unfold len in Hlen. simpl in Hlen. lia.
    - simpl. rewrite Hj. eauto. }
  rewrite Hm. simpl Nat.eqb. cbv iota.
  replace (Z.of_nat (S m) <? 1) with false by (symmetry; apply Z.ltb_ge; lia).
  simpl. destruct old as [|d old]; [congruence|]. now rewrite Hj.
Qed.

Lemma Replace_absent (s old new : string) (n : Z) :
  old <> "" -> Index s old = None -> Replace s old new n = s.
Proof.
  intros Hold Hj. unfold Replace.
  destruct (bool_decide (old = new) || (n =? 0)); [reflexivity|]. cbv zeta.
  assert (Count s old = 0%nat) as ->; [|reflexivity].
  destruct old as [|d old]; [congruence|]. unfold Count.
  destruct (len s); simpl; [reflexivity|]. now rewrite Hj.
Qed.

Lemma replace_every_cons (old new : string) (c : ascii) (s : string) :
  replace_every old new 0 (String c s) =
    if HasPrefix (String c s) old
    then new +:+ replace_every old new (len old - 1) s
    else String c (replace_every old new 0 s).
Proof. reflexivity. Qed.

Lemma HasPrefix_char (c d : ascii) (s : string) :
  HasPrefix (String c s) (String d "") = Ascii.eqb c d.
Proof.
  cbn [HasPrefix]. rewrite (Ascii.eqb_sym d c). now destruct (Ascii.eqb c d).
Qed.

Lemma replace_every_quote (s : string) : replace_every "'" "''" 0 s = double_quotes s.
Proof.
  induction s as [|c s IH]; [reflexivity|].
  rewrite replace_every_cons, HasPrefix_char. cbn [double_quotes].
  change (len "'" - 1)%nat with 0%nat. rewrite IH.
  now destruct (Ascii.eqb c "'").
Qed.

Lemma replace_every_space (s : string) : replace_every " " "" 0 s = strip_spaces s.
Proof.
  induction s as [|c s IH]; [reflexivity|].
  rewrite replace_every_cons, HasPrefix_char. cbn [strip_spaces].
  change (len " " - 1)%nat with 0%nat. rewrite IH.
  now destruct (Ascii.eqb c " ").
Qed.

End ReplaceFacts.

(** ** Facts about the table resolution *)

Section ResolveFacts.

Lemma ignore_map_lookup (ignoreTables : list string) (t : string) :
  default false (ignore_map ignoreTables !! t) = bool_decide (t ∈ ignoreTables).
Proof.
  unfold ignore_map.
  assert (forall m : gmap string bool,
            (forall k v, m !! k = Some v -> v = true) ->
            default false (foldl (fun bMap b => <[b := true]> bMap) m ignoreTables !! t)
            = bool_decide (t ∈ ignoreTables) || default false (m !! t)) as H.
  { induction ignoreTables as [|b bs IH]; intros m Hm; cbn [foldl].
    - rewrite bool_decide_eq_false_2; [reflexivity|]. apply not_elem_of_nil.
    - rewrite IH.
      + destruct (decide (b = t)) as [->|Hne].
        * rewrite lookup_insert_eq. simpl.
          rewrite (bool_decide_eq_true_2 (t ∈ t :: bs)) by (apply elem_of_cons; now left).
          now rewrite orb_true_r.
        * rewrite lookup_insert_ne by exact Hne. f_equal.
          apply bool_decide_ext. rewrite elem_of_cons. intuition congruence.
      + intros k v. destruct (decide (b = k)) as [->|Hne].
        * rewrite lookup_insert_eq. congruence.
        * rewrite lookup_insert_ne by exact Hne. apply Hm. }
  rewrite H.
  - rewrite lookup_empty. simpl. apply orb_false_r.
  - intros k v. rewrite lookup_empty. discriminate.
Qed.

Lemma exclude_tables_without (ignoreTables tmp : list string) :
  exclude_tables ignoreTables tmp = without ignoreTables tmp.
Proof.
  unfold exclude_tables, without.
  assert (forall acc : list string,
            foldl (fun result a =>
                     if negb (default false (ignore_map ignoreTables !! a))
                     then result ++ [a] else result) acc tmp
            = acc ++ filter (fun t => t ∉ ignoreTables) tmp) as H.
  { induction tmp as [|a tmp IH]; intros acc; cbn [foldl].
    - now rewrite filter_nil, app_nil_r.
    - rewrite IH, ignore_map_lookup.
      destruct (decide (a ∈ ignoreTables)) as [Hin|Hout].
      + rewrite bool_decide_eq_true_2 by exact Hin. simpl.
        now rewrite filter_cons_False by (intros Hn; now apply Hn).
      + rewrite bool_decide_eq_false_2 by exact Hout. simpl.
        rewrite filter_cons_True by exact Hout. now rewrite <- app_assoc. }
  apply H.
Qed.

Lemma without_nil (all : list string) : without [] all = all.
Proof.
  unfold without. induction all as [|a all IH]; [reflexivity|].
  rewrite filter_cons_True by apply not_elem_of_nil. now rewrite IH.
Qed.

End ResolveFacts.

(** ** Facts about formatting and the type switch *)

(** The branch of the type switch that a hypothesis on [classify]
    selects: one case distinction a [case] list, in the order of the
    source. *)
Ltac switch_branch :=
  unfold classify, render_value;
  repeat match goal with
         | |- context [is_case ?t ?l] =>
             destruct (is_case t l); [first [discriminate | reflexivity]|]
         end;
  first [discriminate | reflexivity].

Section RenderFacts.
Variable fmt_other : ascii -> GoValue -> string.

Lemma Sprintf_s (s : string) : Sprintf fmt_other "%s" (VString s) = s.
Proof. change (s +:+ "" = s). apply sapp_nil_r. Qed.

Lemma Sprintf_s_bytes (s : string) : Sprintf fmt_other "%s" (VBytes s) = s.
Proof. change (s +:+ "" = s). apply sapp_nil_r. Qed.

Lemma Sprintf_quoted (s : string) :
  Sprintf fmt_other "'%s'" (VString s) = "'" +:+ s +:+ "'".
Proof. reflexivity. Qed.

Lemma Errorf_unsupported (name : string) :
  Errorf fmt_other "unsupported type: %s" (VString name)
  = GoError ("unsupported type: " +:+ name).
Proof.
  unfold Errorf. f_equal.
  change ("unsupported type: " +:+ name +:+ "" = "unsupported type: " +:+ name).
  now rewrite sapp_nil_r.
Qed.

(** The [switch] reaches [default] exactly on the names outside the
    specification's table. *)
Lemma render_value_unsupported (err : option error) (name : string) (col : GoValue) :
  classify name = None ->
  render_value fmt_other err name col
  = Return (Some (Errorf fmt_other "unsupported type: %s" (VString name))).
Proof.
  switch_branch.
Qed.

Lemma render_value_text (err : option error) (name : string) (col : GoValue) :
  classify name = Some Text ->
  render_value fmt_other err name col
  = Next (Sprintf fmt_other "'%s'"
            (VString (GoString.Replace (Sprintf fmt_other "%s" col) "'" "''" (-1)))).
Proof.
  switch_branch.
Qed.

Lemma render_cell_non_nil (err : option error) (tys : list string) (i : nat)
    (ty : string) (col : GoValue) :
  tys !! i = Some ty -> col <> VNil ->
  render_cell fmt_other err tys i col = render_value fmt_other err (normalize ty) col.
Proof.
  intros Hty Hcol. unfold render_cell. rewrite Hty. now destruct col.
Qed.

End RenderFacts.

(** ** Facts about decimal numerals *)

Section NumeralFacts.
Import GoString.

Lemma digit_val_spec (c : ascii) (d : Z) :
  digit_val c = Some d -> 0 <= d <= 9 /\ Fmt.digit d = c.
Proof.
  unfold digit_val, Fmt.digit, byte_val.
  destruct (_ && _) eqn:E; [|discriminate]. intros [= <-].
  apply andb_true_iff in E as [E1 E2]. apply Z.leb_le in E1, E2.
  split; [lia|].
  replace (48 + (Z.of_N (N_of_ascii c) - 48)) with (Z.of_N (N_of_ascii c)) by lia.
  rewrite N2Z.id. apply ascii_N_embedding.
Qed.

Lemma digit_val_zero (c : ascii) : digit_val c = Some 0 -> c = "0"%char.
Proof. intros H. apply digit_val_spec in H as [_ <-]. reflexivity. Qed.

Lemma digits_value_snoc (s : string) (c : ascii) (acc : Z) :
  digits_value acc (s +:+ String c "") =
    match digits_value acc s, digit_val c with
    | Some v, Some d => Some (10 * v + d)
    | _, _ => None
    end.
Proof.
  revert acc. induction s as [|a s IH]; intros acc.
  - rewrite sapp_nil_l. simpl. now destruct (digit_val c).
  - rewrite sapp_cons. simpl. destruct (digit_val a); [apply IH|reflexivity].
Qed.

Lemma digits_value_lower (s : string) (acc v : Z) :
  digits_value acc s = Some v -> 0 <= acc -> acc * 10 ^ Z.of_nat (len s) <= v.
Proof.
  revert acc. induction s as [|a s IH]; intros acc; simpl digits_value.
  - intros [= <-] _. unfold len. simpl. lia.
  - destruct (digit_val a) as [d|] eqn:Ed; [|discriminate]. intros Hv Hacc.
    apply digit_val_spec in Ed as [Hd _].
    apply IH in Hv; [|lia].
    unfold len in *. simpl String.length. rewrite Nat2Z.inj_succ, Z.pow_succ_r by lia.
    assert (0 <= 10 ^ Z.of_nat (String.length s)) by (apply Z.pow_nonneg; lia).
    nia.
Qed.

Lemma string_snoc (s : string) :
  s = "" \/ exists s' c, s = s' +:+ String c "".
Proof.
  induction s as [|a s IH]; [now left|]. right.
  destruct IH as [->|(s' & c & ->)].
  - now exists "", a.
  - now exists (String a s'), c.
Qed.

Lemma lead_digit_positive (a : ascii) (r : string) (v : Z) :
  digits_value 0 (String a r) = Some v -> a <> "0"%char -> 10 ^ Z.of_nat (len r) <= v.
Proof.
  simpl digits_value. destruct (digit_val a) as [d|] eqn:Ed; [|discriminate].
  intros Hv Ha. assert (1 <= d).
  { destruct (Z.eq_dec d 0) as [->|]; [now apply digit_val_zero in Ed|].
    apply digit_val_spec in Ed. lia. }
  apply digits_value_lower in Hv; [|lia].
  assert (0 <= 10 ^ Z.of_nat (len r)) by (apply Z.pow_nonneg; lia). nia.
Qed.

(** The digit loop writes a numeral without leading zero back. *)
Lemma digits_loop_numeral (fuel : nat) :
  forall (s : string) (v : Z) (acc : string),
  s <> "" -> no_lead_zero s = true -> digits_value 0 s = Some v ->
  (len s <= fuel)%nat -> Fmt.digits_loop fuel v acc = s +:+ acc.
Proof.
  induction fuel as [|fuel IH]; intros s v acc Hne Hlead Hv Hlen.
  - destruct s; [congruence|]. unfold len in Hlen. simpl in Hlen. lia.
  - destruct (string_snoc s) as [->|(s' & c & ->)]; [congruence|].
    rewrite digits_value_snoc in Hv.
    destruct (digits_value 0 s') as [v'|] eqn:Hv'; [|discriminate].
    destruct (digit_val c) as [d|] eqn:Hd; [|discriminate].
    injection Hv as <-. apply digit_val_spec in Hd as [Hd <-].
    rewrite sapp_assoc. rewrite sapp_cons, sapp_nil_l.
    destruct s' as [|a r].
    + simpl in Hv'. injection Hv' as <-. simpl Fmt.digits_loop.
      replace (10 * 0 + d <? 10) with true by (symmetry; apply Z.ltb_lt; lia).
      now rewrite Z.add_0_l.
    + assert (a <> "0"%char) as Ha.
      { rewrite sapp_cons in Hlead. simpl in Hlead.
        destruct (r +:+ String (Fmt.digit d) "") eqn:Er.
        - destruct r; discriminate.
        - intros ->. discriminate. }
      pose proof (lead_digit_positive a r v' Hv' Ha) as Hlow.
      assert (0 < 10 ^ Z.of_nat (len r)) by (apply Z.pow_pos_nonneg; lia).
      simpl Fmt.digits_loop.
      replace (10 * v' + d <? 10) with false by (symmetry; apply Z.ltb_ge; lia).
      replace ((10 * v' + d) / 10) with v'
        by (symmetry; rewrite Z.mul_comm, Z.div_add_l by lia; rewrite Z.div_small by lia; lia).
      replace (10 * v' + d - v' * 10) with d by lia.
      apply IH.
      * discriminate.
      * destruct r; [reflexivity|]. simpl. now destruct (Ascii.eqb a "0") eqn:E;
          [apply Ascii.eqb_eq in E|].
      * exact Hv'.
      * rewrite len_app in Hlen. unfold len in *. simpl in *. lia.
Qed.

Lemma digits_numeral (s : string) (v : Z) :
  s <> "" -> no_lead_zero s = true -> digits_value 0 s = Some v -> Fmt.digits v = s.
Proof.
  intros Hne Hlead Hv. unfold Fmt.digits.
  rewrite (digits_loop_numeral _ s v "" Hne Hlead Hv); [apply sapp_nil_r|].
  destruct s as [|a r]; [congruence|]. destruct r as [|b r]; [unfold len; simpl; lia|].
  simpl in Hlead. assert (a <> "0"%char) as Ha by (intros ->; discriminate).
  pose proof (lead_digit_positive a _ v Hv Ha) as Hlow.
  set (k := Z.of_nat (len (String b r))) in *.
  assert (0 <= k) by (unfold k; lia).
  assert (2 ^ k <= 10 ^ k) by (apply Z.pow_le_mono_l; lia).
  assert (0 < 2 ^ k) by (apply Z.pow_pos_nonneg; lia).
  assert (k <= Z.log2 v) by (apply Z.log2_le_pow2; lia).
  unfold k, len in *. simpl String.length in *. lia.
Qed.

(** [%d] writes a canonical numeral back. *)
Lemma fmtInteger_numeral (bs : string) (n : Z) :
  numeral_value bs = Some n -> canonical bs = true -> Fmt.fmtInteger n = bs.
Proof.
  destruct bs as [|c s]; [discriminate|]. unfold numeral_value, Fmt.fmtInteger.
  destruct (Ascii.eqb c "-") eqn:Ec.
  - apply Ascii.eqb_eq in Ec as ->. destruct s as [|d r]; [discriminate|].
    destruct (digits_value 0 (String d r)) as [v|] eqn:Hv; [|discriminate].
    intros [= <-] Hcan. simpl in Hcan.
    assert (d <> "0"%char) as Hd by (intros ->; discriminate).
    pose proof (lead_digit_positive d r v Hv Hd) as Hlow.
    assert (0 < 10 ^ Z.of_nat (len r)) by (apply Z.pow_pos_nonneg; lia).
    replace (- v <? 0) with true by (symmetry; apply Z.ltb_lt; lia).
    rewrite Z.opp_involutive. f_equal. apply digits_numeral; [discriminate| |exact Hv].
    destruct r; [reflexivity|exact Hcan].
  - intros Hv Hcan. pose proof (digits_value_lower _ _ _ Hv ltac:(lia)) as Hlow.
    replace (n <? 0) with false by (symmetry; apply Z.ltb_ge; lia).
    apply digits_numeral; [discriminate| |exact Hv].
    destruct s; [reflexivity|]. simpl in Hcan. rewrite Ec in Hcan. exact Hcan.
Qed.

End NumeralFacts.

(** ** Facts about the loops *)

Section LoopFacts.
Variable fmt_other : ascii -> GoValue -> string.

Lemma render_value_Next_any_err (name : string) (col : GoValue) (lit : string) :
  render_value fmt_other None name col = Next lit ->
  forall err, render_value fmt_other err name col = Next lit.
Proof.
  unfold render_value.
  repeat match goal with
         | |- context [is_case ?t ?l] => destruct (is_case t l)
         end;
    destruct col; intros H err; first [discriminate | exact H].
Qed.

Lemma cell_literal_render (tys : list string) (i : nat) (col : GoValue) (lit : string) :
  cell_literal fmt_other tys i col = Some lit ->
  forall err, render_cell fmt_other err tys i col = Next lit.
Proof.
  unfold cell_literal, render_cell. intros H err.
  destruct col; try (injection H as <-; reflexivity);
    (destruct (tys !! i) as [ty|]; [|discriminate];
     match type of H with
     | context [render_value _ _ ?n ?c] =>
         destruct (render_value fmt_other None n c) eqn:E; try discriminate;
         injection H as <-; now apply render_value_Next_any_err
     end).
Qed.

Lemma row_loop_literals (err : option error) (tys : list string) (n : nat) :
  forall (cols : list GoValue) (i : nat) (lits : list string) (ssql : string),
  literals_from fmt_other tys i cols = Some lits ->
  (i + length cols = n)%nat ->
  row_loop fmt_other err tys n i cols ssql = Next (ssql +:+ String.concat "," lits).
Proof.
  induction cols as [|col cols IH]; intros i lits ssql Hl Hn.
  - injection Hl as <-. simpl. now rewrite sapp_nil_r.
  - simpl in Hl.
    destruct (cell_literal fmt_other tys i col) as [lit|] eqn:Hc; [|discriminate].
    destruct (literals_from fmt_other tys (S i) cols) as [lits'|] eqn:Hr; [|discriminate].
    injection Hl as <-.
    cbn [row_loop]. rewrite (cell_literal_render _ _ _ _ Hc err).
    cbn [mbind ctl_bind].
    destruct cols as [|col' cols].
    + injection Hr as <-. simpl in Hn.
      replace (Z.of_nat i <? Z.of_nat n - 1) with false by (symmetry; apply Z.ltb_ge; lia).
      reflexivity.
    + simpl in Hn.
      replace (Z.of_nat i <? Z.of_nat n - 1) with true by (symmetry; apply Z.ltb_lt; lia).
      rewrite (IH (S i) lits' _ Hr) by (simpl; lia).
      f_equal. destruct lits' as [|l ls].
      * simpl in Hr.
        destruct (cell_literal fmt_other tys (S i) col'); [|discriminate Hr].
        destruct (literals_from fmt_other tys (S (S i)) cols); discriminate Hr.
      * cbn [String.concat]. now rewrite !sapp_assoc.
Qed.

Lemma insert_head_statement (table : string) (ig : bool) (lits : list string) :
  (insert_head table ig +:+ String.concat "," lits) +:+ ");" +:+ nl
  = insert_statement table ig lits.
Proof.
  unfold insert_head, insert_statement. destruct ig; now rewrite !sapp_assoc.
Qed.

Lemma rows_loop_literals (err : option error) (table : string) (ig : bool)
    (tys : list string) :
  forall (values : list (list GoValue)) (litss : list (list string)) (buf : string),
  mapM (row_literals fmt_other tys) values = Some litss ->
  rows_loop fmt_other err table ig tys values buf
  = (buf +:+ concat_all (insert_statement table ig <$> litss), Next tt).
Proof.
  intros values litss buf H. apply mapM_Some in H. revert buf.
  induction H as [|row lits values litss Hrow _ IH]; intros buf.
  - simpl. now rewrite sapp_nil_r.
  - cbn [rows_loop]. unfold mbind at 1, M_bind, lift.
    rewrite (row_loop_literals err tys (length row) row 0 lits _ Hrow) by reflexivity.
    unfold mbind at 1, M_bind, WriteString.
    rewrite IH. rewrite insert_head_statement.
    cbn [fmap list_fmap concat_all foldr]. now rewrite !sapp_assoc.
Qed.

Lemma scan_loop_all (vs acc : list (list GoValue)) :
  scan_loop (Ok <$> vs) acc None = Next (acc ++ vs, None).
Proof.
  revert acc. induction vs as [|v vs IH]; intros acc; cbn [fmap list_fmap scan_loop].
  - now rewrite app_nil_r.
  - rewrite IH. now rewrite <- app_assoc.
Qed.

(** The variable [err] is nil whenever the rendering loop runs. *)
Lemma scan_loop_err_nil (pending : list (result (list GoValue)))
    (acc values : list (list GoValue)) (err err' : option error) :
  scan_loop pending acc err = Next (values, err') -> err = None -> err' = None.
Proof.
  revert acc err. induction pending as [|[row|e] pending IH]; intros acc err; simpl.
  - now intros [= _ <-].
  - intros H _. now apply (IH _ _ H).
  - discriminate.
Qed.

Lemma Sprintf_records (table : string) :
  Sprintf fmt_other ("-- Records of %s" +:+ nl) (VString table)
  = "-- Records of " +:+ table +:+ nl.
Proof. reflexivity. Qed.

(** After a successful query the function is its rendering loop, then
    the closing blank lines. *)
Lemma writeTableData_rows (db : DB) (table : string) (ig : bool) (tys : list string)
    (values : list (list GoValue)) (buf : string) :
  table_rows fmt_other db table tys values ->
  writeTableData fmt_other db table ig buf
  = match rows_loop fmt_other None table ig tys values (buf +:+ records_header table) with
    | (buf', Next _) => (buf' +:+ nl +:+ nl, Return None)
    | (buf', Return e) => (buf', Return e)
    | (buf', Panic r) => (buf', Panic r)
    end.
Proof.
  intros (lineRows & columns & Hq & Hc & Ht & Hs).
  unfold writeTableData. rewrite Hq, Hc, Ht, Hs, scan_loop_all.
  unfold mbind, M_bind, WriteString, lift, return_. rewrite Sprintf_records.
  unfold records_header. rewrite !sapp_assoc. simpl app.
  destruct (rows_loop _ _ _ _ _ _ _) as [buf' [[]|e|r]]; reflexivity.
Qed.

Lemma writeTableData_literals (db : DB) (table : string) (ig : bool)
    (tys : list string) (values : list (list GoValue)) (litss : list (list string))
    (buf : string) :
  table_rows fmt_other db table tys values ->
  mapM (row_literals fmt_other tys) values = Some litss ->
  writeTableData fmt_other db table ig buf
  = (buf +:+ records_header table
       +:+ concat_all (insert_statement table ig <$> litss) +:+ nl +:+ nl,
     Return None).
Proof.
  intros Hrows Hl. rewrite (writeTableData_rows _ _ _ _ _ _ Hrows).
  rewrite (rows_loop_literals _ _ _ _ _ _ _ Hl). now rewrite !sapp_assoc.
Qed.

End LoopFacts.

(** ** Facts about early ends *)

Section HaltFacts.
Variable fmt_other : ascii -> GoValue -> string.

Lemma row_loop_halts (err : option error) (tys : list string) (n : nat) :
  forall (pre : list GoValue) (i : nat) (lits : list string) (col : GoValue)
         (post : list GoValue) (ssql : string) (h : halt),
  literals_from fmt_other tys i pre = Some lits ->
  render_cell fmt_other err tys (i + length pre) col = halted h ->
  row_loop fmt_other err tys n i (pre ++ col :: post) ssql = halted h.
Proof.
  induction pre as [|c pre IH]; intros i lits col post ssql h Hl Hc.
  - simpl in *. rewrite Nat.add_0_r in Hc. rewrite Hc. now destruct h.
  - simpl in Hl.
    destruct (cell_literal fmt_other tys i c) as [lit|] eqn:Hlit; [|discriminate].
    destruct (literals_from fmt_other tys (S i) pre) as [lits'|] eqn:Hr; [|discriminate].
    cbn [app row_loop]. rewrite (cell_literal_render _ _ _ _ _ Hlit err).
    cbn [mbind ctl_bind]. apply (IH (S i) lits'); [exact Hr|].
    simpl in Hc. now rewrite Nat.add_succ_r in Hc.
Qed.

Lemma rows_loop_halts (err : option error) (table : string) (ig : bool)
    (tys : list string) (row : list GoValue) (after : list (list GoValue)) (h : halt) :
  forall (before : list (list GoValue)) (litss : list (list string)) (buf : string),
  mapM (row_literals fmt_other tys) before = Some litss ->
  row_loop fmt_other err tys (length row) 0 row (insert_head table ig) = halted h ->
  rows_loop fmt_other err table ig tys (before ++ row :: after) buf
  = (buf +:+ concat_all (insert_statement table ig <$> litss), halted h).
Proof.
  intros before litss buf H Hrow. apply mapM_Some in H. revert buf.
  induction H as [|r lits before litss Hr _ IH]; intros buf.
  - cbn [app rows_loop]. unfold mbind at 1, M_bind, lift. rewrite Hrow.
    simpl. rewrite sapp_nil_r. now destruct h.
  - cbn [app rows_loop]. unfold mbind at 1, M_bind, lift.
    rewrite (row_loop_literals fmt_other err tys (length r) r 0 lits _ Hr) by reflexivity.
    unfold mbind at 1, M_bind, WriteString.
    rewrite IH. rewrite insert_head_statement.
    cbn [fmap list_fmap concat_all foldr]. now rewrite !sapp_assoc.
Qed.

(** The first cell that does not render to a literal ends the function
    as it ends itself; the rows before it are written, its own row and
    the closing blank lines are not. *)
Lemma writeTableData_halts (db : DB) (table : string) (ig : bool) (tys : list string)
    (before : list (list GoValue)) (pre : list GoValue) (col : GoValue)
    (post : list GoValue) (after : list (list GoValue))
    (litss : list (list string)) (lits : list string) (buf : string) (h : halt) :
  table_rows fmt_other db table tys (before ++ (pre ++ col :: post) :: after) ->
  mapM (row_literals fmt_other tys) before = Some litss ->
  row_literals fmt_other tys pre = Some lits ->
  render_cell fmt_other None tys (length pre) col = halted h ->
  writeTableData fmt_other db table ig buf
  = (buf +:+ records_header table +:+ concat_all (insert_statement table ig <$> litss),
     halted h).
Proof.
  intros Hrows Hb Hp Hc. rewrite (writeTableData_rows _ _ _ _ _ _ _ Hrows).
  rewrite (rows_loop_halts None table ig tys _ after h before litss _ Hb).
  - rewrite !sapp_assoc. now destruct h.
  - apply (row_loop_halts None tys _ pre 0%nat lits); assumption.
Qed.

Lemma Sprintf_structure (table : string) :
  Sprintf fmt_other ("-- Table structure for %s" +:+ nl) (VString table)
  = "-- Table structure for " +:+ table +:+ nl.
Proof. reflexivity. Qed.

Lemma Sprintf_drop (table : string) :
  Sprintf fmt_other ("DROP TABLE IF EXISTS `%s`;" +:+ nl) (VString table)
  = "DROP TABLE IF EXISTS `" +:+ table +:+ "`;" +:+ nl.
Proof. reflexivity. Qed.

Lemma writeTableStruct_ok (db : DB) (table sql buf : string) :
  getCreateTableSQL fmt_other db table = Ok sql ->
  writeTableStruct fmt_other db table buf = (buf +:+ structure_text table sql, Return None).
Proof.
  intros H. unfold writeTableStruct. rewrite H.
  unfold mbind, M_bind, WriteString, return_. rewrite Sprintf_structure.
  unfold structure_text. now rewrite !sapp_assoc.
Qed.

(** One table of a dump with data: the function's error ends the dump,
    its nil lets the loop go on. *)
Lemma dump_table_data (o : dumpOption) (db : DB) (table sql buf : string) :
  isData o = true ->
  getCreateTableSQL fmt_other db table = Ok sql ->
  dump_table fmt_other o db table buf
  = match writeTableData fmt_other db table (isIgnoreInsert o)
            (buf +:+ drop_text o table +:+ structure_text table sql) with
    | (buf', Return (Some e)) => (buf', Return (Some e))
    | (buf', Return None) => (buf', Next tt)
    | (buf', Next _) => (buf', Next tt)
    | (buf', Panic r) => (buf', Panic r)
    end.
Proof.
  intros Hdata Hsql. unfold dump_table. rewrite Hdata.
  unfold mbind at 1, M_bind.
  assert ((if isDropTable o
           then WriteString (Sprintf fmt_other ("DROP TABLE IF EXISTS `%s`;" +:+ nl)
                               (VString table))
           else mret tt) buf = (buf +:+ drop_text o table, Next tt)) as ->.
  { unfold drop_text. destruct (isDropTable o).
    - unfold WriteString. now rewrite Sprintf_drop.
    - unfold mret, M_ret. now rewrite sapp_nil_r. }
  unfold mbind at 1, M_bind, call.
  rewrite (writeTableStruct_ok db table sql _ Hsql).
  unfold mbind, M_bind, call. rewrite !sapp_assoc.
  destruct (writeTableData _ _ _ _ _) as [buf' [[]|[e|]|r]]; reflexivity.
Qed.

Lemma tables_dump_app (o : dumpOption) (db : DB) (ts1 ts2 : list string) :
  forall buf,
  tables_dump fmt_other o db (ts1 ++ ts2) buf
  = match tables_dump fmt_other o db ts1 buf with
    | (buf', Next _) => tables_dump fmt_other o db ts2 buf'
    | (buf', Return e) => (buf', Return e)
    | (buf', Panic r) => (buf', Panic r)
    end.
Proof.
  induction ts1 as [|t ts1 IH]; intros buf; [reflexivity|].
  cbn [app tables_dump]. unfold mbind, M_bind.
  destruct (dump_table fmt_other o db t buf) as [buf' [[]|e|r]]; [apply IH|reflexivity..].
Qed.

(** Once connected, a dump is its loop over the tables between the
    opening and the closing comment. *)
Lemma Dump_tables (env : Env) (dsn : string) (opts : list DumpOption) (db : DB)
    (ts : list string) (buf : string) :
  connected fmt_other env dsn db ->
  resolve_tables (effective_options opts) db = Ok ts ->
  Dump fmt_other env dsn opts buf
  = match tables_dump fmt_other (effective_options opts) db ts (buf +:+ dump_header env) with
    | (buf', Next _) => (buf' +:+ dump_footer env, Return None)
    | (buf', Return e) => (buf', Return e)
    | (buf', Panic r) => (buf', Panic r)
    end.
Proof.
  intros (Hopen & dbName & Hname & Huse) Hts. unfold Dump. cbv zeta.
  unfold mbind at 1 2 3 4 5, M_bind, WriteString.
  rewrite Hopen, Hname, Huse, Hts.
  unfold mbind, M_bind, WriteString, return_. unfold dump_header, dump_footer.
  rewrite !sapp_assoc.
  destruct (tables_dump _ _ _ _ _) as [buf' [[]|e|r]]; [|reflexivity..].
  now rewrite !sapp_assoc.
Qed.

End HaltFacts.

Section MoreFacts.
Variable fmt_other : ascii -> GoValue -> string.

Lemma literals_from_nils (tys : list string) (n i : nat) :
  literals_from fmt_other tys i (replicate n VNil) = Some (replicate n "NULL").
Proof.
  revert i. induction n as [|n IH]; intros i; [reflexivity|].
  cbn [replicate literals_from cell_literal]. now rewrite IH.
Qed.

(** The five categories with a type assertion of the form [v, ok := ..]
    return the variable [err] on a value of another type. *)
Lemma conversion_mismatch_returns_err (err : option error) (name : string)
    (col : GoValue) :
  (is_case name ["DATE"; "DATETIME"; "TIMESTAMP"] = true /\ (forall t, col <> VTime t)) \/
  (is_case name ["TIME"; "YEAR"] = true /\ (forall bs, col <> VBytes bs)) ->
  render_value fmt_other err name col = Return err.
Proof.
  unfold is_case. cbn [existsb].
  intros [[Hn Hc]|[Hn Hc]];
    repeat (apply orb_true_iff in Hn as [Hn|Hn]); try discriminate;
    apply String.eqb_eq in Hn as ->;
    destruct col; try reflexivity; exfalso; eapply Hc; reflexivity.
Qed.

(** With the variable [err] nil when the loop runs, a conversion mismatch
    ends [writeTableData] with a nil error. *)
Lemma writeTableData_conversion_mismatch (db : DB) (table : string) (ig : bool)
    (tys : list string) (before : list (list GoValue)) (pre : list GoValue)
    (col : GoValue) (post : list GoValue) (after : list (list GoValue))
    (litss : list (list string)) (lits : list string) (buf ty : string) :
  table_rows fmt_other db table tys (before ++ (pre ++ col :: post) :: after) ->
  mapM (row_literals fmt_other tys) before = Some litss ->
  row_literals fmt_other tys pre = Some lits ->
  tys !! length pre = Some ty ->
  col <> VNil ->
  (is_case (normalize ty) ["DATE"; "DATETIME"; "TIMESTAMP"] = true /\
   (forall t, col <> VTime t)) \/
  (is_case (normalize ty) ["TIME"; "YEAR"] = true /\ (forall bs, col <> VBytes bs)) ->
  writeTableData fmt_other db table ig buf
  = (buf +:+ records_header table +:+ concat_all (insert_statement table ig <$> litss),
     Return None).
Proof.
  intros Hrows Hb Hp Hty Hcol Hmis.
  apply (writeTableData_halts fmt_other db table ig tys before pre col post after litss lits
           buf (HReturn None) Hrows Hb Hp).
  rewrite (render_cell_non_nil fmt_other None tys _ ty col Hty Hcol).
  now apply conversion_mismatch_returns_err.
Qed.

Lemma render_value_boolean (err : option error) (name : string) (col : GoValue) :
  classify name = Some Boolean ->
  render_value fmt_other err name col
  = match col with
    | VBool b => Next (if b then "true" else "false")
    | _ => Panic ("interface conversion: interface {} is " +:+ type_name col +:+ ", not bool")
    end.
Proof.
  switch_branch.
Qed.

Lemma render_value_no_panic (err : option error) (name : string) (col : GoValue)
    (r : string) :
  classify name <> Some Boolean -> render_value fmt_other err name col <> Panic r.
Proof.
  unfold classify, render_value.
  repeat match goal with
         | |- context [is_case ?t ?l] => destruct (is_case t l)
         end;
    intros Hc; try congruence; destruct col; discriminate.
Qed.

(** A dump with data that reaches, in table [t], a first cell that
    ends in an error or a panic ends the same way. *)
Lemma Dump_halts_at_cell (env : Env) (dsn : string) (opts : list DumpOption) (db : DB)
    (ts1 : list string) (t : string) (ts2 : list string) (sql : string)
    (tys : list string) (before : list (list GoValue)) (pre : list GoValue)
    (col : GoValue) (post : list GoValue) (after : list (list GoValue))
    (litss : list (list string)) (lits : list string) (buf1 : string) (h : halt) :
  connected fmt_other env dsn db ->
  isData (effective_options opts) = true ->
  resolve_tables (effective_options opts) db = Ok (ts1 ++ t :: ts2) ->
  tables_dump fmt_other (effective_options opts) db ts1 (dump_header env) = (buf1, Next tt) ->
  getCreateTableSQL fmt_other db t = Ok sql ->
  table_rows fmt_other db t tys (before ++ (pre ++ col :: post) :: after) ->
  mapM (row_literals fmt_other tys) before = Some litss ->
  row_literals fmt_other tys pre = Some lits ->
  render_cell fmt_other None tys (length pre) col = halted h ->
  h <> HReturn None ->
  run_Dump fmt_other env dsn opts
  = (buf1 +:+ drop_text (effective_options opts) t +:+ structure_text t sql
       +:+ records_header t
       +:+ concat_all (insert_statement t (isIgnoreInsert (effective_options opts)) <$> litss),
     halted h).
Proof.
  intros Hconn Hdata Hts Hts1 Hsql Hrows Hb Hp Hc Hh. unfold run_Dump.
  rewrite (Dump_tables fmt_other env dsn opts db _ "" Hconn Hts).
  rewrite sapp_nil_l, tables_dump_app, Hts1. cbn [tables_dump].
  unfold mbind, M_bind. rewrite (dump_table_data fmt_other _ db t sql _ Hdata Hsql).
  rewrite (writeTableData_halts fmt_other db t _ tys before pre col post after litss lits _ h
             Hrows Hb Hp Hc).
  rewrite !sapp_assoc. destruct h as [[e|]|r]; [reflexivity|congruence|reflexivity].
Qed.

(** The panic of the Boolean branch unwinds through [Dump]: nothing in
    the package recovers it. *)
Lemma Dump_panics_at_boolean_mismatch (env : Env) (dsn : string)
    (opts : list DumpOption) (db : DB)
    (ts1 : list string) (t : string) (ts2 : list string) (sql : string)
    (tys : list string) (before : list (list GoValue)) (pre : list GoValue)
    (col : GoValue) (post : list GoValue) (after : list (list GoValue))
    (litss : list (list string)) (lits : list string) (buf1 ty : string) :
  connected fmt_other env dsn db ->
  isData (effective_options opts) = true ->
  resolve_tables (effective_options opts) db = Ok (ts1 ++ t :: ts2) ->
  tables_dump fmt_other (effective_options opts) db ts1 (dump_header env) = (buf1, Next tt) ->
  getCreateTableSQL fmt_other db t = Ok sql ->
  table_rows fmt_other db t tys (before ++ (pre ++ col :: post) :: after) ->
  mapM (row_literals fmt_other tys) before = Some litss ->
  row_literals fmt_other tys pre = Some lits ->
  tys !! length pre = Some ty ->
  col <> VNil ->
  (forall b, col <> VBool b) ->
  classify (normalize ty) = Some Boolean ->
  snd (run_Dump fmt_other env dsn opts)
  = Panic ("interface conversion: interface {} is " +:+ type_name col +:+ ", not bool").
Proof.
  intros Hconn Hdata Hts Hts1 Hsql Hrows Hb Hp Hty Hcol Hbool Hcat.
  rewrite (Dump_halts_at_cell env dsn opts db ts1 t ts2 sql tys before pre col post
             after litss lits buf1
             (HPanic ("interface conversion: interface {} is " +:+ type_name col
                        +:+ ", not bool")));
    try assumption; [reflexivity| |discriminate].
  rewrite (render_cell_non_nil fmt_other None tys _ ty col Hty Hcol).
  rewrite (render_value_boolean None _ col Hcat).
  destruct col; try reflexivity. now destruct (Hbool b).
Qed.

End MoreFacts.

(** ** Facts about the integer category *)

Lemma render_value_integer (fmt_other : ascii -> GoValue -> string)
    (err : option error) (name : string) (col : GoValue) :
  classify name = Some Integer ->
  render_value fmt_other err name col
  = match col with
    | VBytes bs => Next bs
    | _ => Next (Sprintf fmt_other "%d" col)
    end.
Proof.
  switch_branch.
Qed.

Lemma Sprintf_d (fmt_other : ascii -> GoValue -> string) (n : Z) :
  Sprintf fmt_other "%d" (VInt64 n) = Fmt.fmtInteger n /\
  Sprintf fmt_other "%d" (VUint64 n) = Fmt.fmtInteger n.
Proof.
  split.
  - change (Fmt.fmtInteger n +:+ "" = Fmt.fmtInteger n). apply sapp_nil_r.
  - change (Fmt.fmtInteger n +:+ "" = Fmt.fmtInteger n). apply sapp_nil_r.
Qed.

(** ** Properties *)

(** C1, evaluated where the code breaks it: table [t] holds a DATE cell
    that the driver delivered as bytes.  [writeTableData] logs the
    conversion error and executes [return err] while [err] is nil, so the
    dump drops both rows of [t], goes on with table [u] and returns nil. *)
Theorem date_mismatch_dump_returns_nil (fmt_other : ascii -> GoValue -> string) :
  run_Dump fmt_other shop_env "root@/shop" [WithData; WithTables ["t"; "u"]]
  = (dump_header shop_env
       +:+ structure_text "t" "CREATE TABLE IF NOT EXISTS `t` (`id` int, `d` date)"
       +:+ records_header "t"
       +:+ shop_u_text
       +:+ dump_footer shop_env,
     Return None).
Proof. vm_compute. reflexivity. Qed.

(** C2, as the code has it: for an integer column, the bytes of a
    canonical decimal numeral (a minus sign for a negative number, no
    leading zero) are rendered as the native integer of the same value is,
    both to the numeral itself. *)
Theorem integer_bytes_and_native_agree (fmt_other : ascii -> GoValue -> string)
    (err : option error) (tys : list string) (i : nat) (ty bs : string) (n : Z)
    (v : GoValue) :
  tys !! i = Some ty ->
  classify (normalize ty) = Some Integer ->
  numeral_value bs = Some n ->
  canonical bs = true ->
  v = VInt64 n \/ v = VUint64 n ->
  render_cell fmt_other err tys i (VBytes bs) = render_cell fmt_other err tys i v /\
  render_cell fmt_other err tys i v = Next bs.
Proof.
  intros Hty Hcat Hval Hcan Hv.
  assert (render_cell fmt_other err tys i v = Next bs) as Hnative.
  { rewrite (render_cell_non_nil fmt_other err tys i ty) by (exact Hty || (destruct Hv; subst; discriminate)).
    rewrite (render_value_integer fmt_other err _ _ Hcat).
    destruct (Sprintf_d fmt_other n) as [H1 H2].
    destruct Hv as [-> | ->]; [rewrite H1|rewrite H2];
      now rewrite (fmtInteger_numeral bs n Hval Hcan). }
  split; [|exact Hnative]. rewrite Hnative.
  rewrite (render_cell_non_nil fmt_other err tys i ty) by (exact Hty || discriminate).
  now rewrite (render_value_integer fmt_other err _ _ Hcat).
Qed.

Lemma integer_bytes_and_native_agree_witness :
  ["BIGINT"] !! 0%nat = Some "BIGINT" /\
  classify (normalize "BIGINT") = Some Integer /\
  numeral_value "-9223372036854775808" = Some (-9223372036854775808) /\
  canonical "-9223372036854775808" = true /\
  render_cell fmt_unused None ["BIGINT"] 0 (VBytes "-9223372036854775808")
    = render_cell fmt_unused None ["BIGINT"] 0 (VInt64 (-9223372036854775808)) /\
  render_cell fmt_unused None ["BIGINT"] 0 (VInt64 (-9223372036854775808))
    = Next "-9223372036854775808".
Proof.
  split; [reflexivity|]. split; [reflexivity|]. split; [reflexivity|].
  split; [reflexivity|].
  apply (integer_bytes_and_native_agree fmt_unused None ["BIGINT"] 0
           "BIGINT" "-9223372036854775808" (-9223372036854775808));
    first [reflexivity | now left].
Defined.

(** C2, as claimed, fails: the double 1.5 delivered as the bytes [1.5] is
    written as they are, and delivered as a native float it is written with
    six fractional digits; an integer delivered as bytes with leading zeros
    keeps them. *)
Lemma float_bytes_and_native_differ :
  spells "1.5" (VFloat64 1.5) = true /\
  render_cell fmt_unused None ["DOUBLE"] 0 (VBytes "1.5") = Next "1.5" /\
  render_cell fmt_unused None ["DOUBLE"] 0 (VFloat64 1.5) = Next "1.500000" /\
  spells "007" (VUint64 7) = true /\
  render_cell fmt_unused None ["UNSIGNED INT"] 0 (VBytes "007") = Next "007" /\
  render_cell fmt_unused None ["UNSIGNED INT"] 0 (VUint64 7) = Next "7".
Proof. vm_compute. repeat split. Qed.

(** C3, as the code has it: the inclusion list decides the tables only
    when it is not empty and the all-tables option is not set; otherwise
    all the tables of the database without those of the exclusion list are
    dumped, in the order the database lists them. *)
Theorem resolve_tables_priority (opts : list DumpOption) (db : DB) :
  resolve_tables (effective_options opts) db =
    if isAllTable (apply_options opts) || bool_decide (tables (apply_options opts) = [])
    then match getAllTables db with
         | Ok all => Ok (without (ignoreTables (apply_options opts)) all)
         | Failed e => Failed e
         end
    else Ok (tables (apply_options opts)).
Proof.
  unfold effective_options, resolve_tables.
  destruct (tables (apply_options opts)) as [|t ts] eqn:Ht; simpl length; simpl Nat.eqb; cbv iota.
  - rewrite orb_true_r. simpl isAllTable. simpl ignoreTables.
    destruct (getAllTables db) as [all|e]; [|reflexivity].
    destruct (ignoreTables (apply_options opts)) as [|x xs]; simpl.
    + now rewrite without_nil.
    + now rewrite exclude_tables_without.
  - rewrite bool_decide_eq_false_2 by discriminate. rewrite orb_false_r.
    destruct (isAllTable (apply_options opts)); [|now rewrite Ht].
    destruct (getAllTables db) as [all|e]; [|reflexivity].
    destruct (ignoreTables (apply_options opts)) as [|x xs]; simpl.
    + now rewrite without_nil.
    + now rewrite exclude_tables_without.
Qed.

(** C3, as claimed, fails: with the all-tables option set, a non-empty
    inclusion list does not decide the tables. *)
Lemma inclusion_list_overridden_by_all_tables :
  let db := mkDB (fun _ => None)
              (fun q => Ok (mkRows (Ok ["Tables_in_db"]) (Ok ["VARCHAR"]) [Ok "a"; Ok "b"]))
              (fun _ => Failed (GoError "no rows")) (fun _ => Failed (GoError "no rows")) in
  tables (effective_options [WithTables ["a"]; WithAllTable]) = ["a"] /\
  resolve_tables (effective_options [WithTables ["a"]; WithAllTable]) db = Ok ["a"; "b"].
Proof. vm_compute. split; reflexivity. Qed.



(** C5: a string or byte-sequence value of a column of the Text category
    is rendered as its bytes between single quotes, every single quote in
    it doubled and every other byte left as it is. *)
Theorem text_literal_doubles_quotes (fmt_other : ascii -> GoValue -> string)
    (err : option error) (tys : list string) (i : nat) (ty s : string) :
  tys !! i = Some ty ->
  classify (normalize ty) = Some Text ->
  render_cell fmt_other err tys i (VString s) = Next ("'" +:+ double_quotes s +:+ "'") /\
  render_cell fmt_other err tys i (VBytes s) = Next ("'" +:+ double_quotes s +:+ "'").
Proof.
  intros Hty Hcat.
  rewrite !(render_cell_non_nil fmt_other err tys i ty) by (exact Hty || discriminate).
  rewrite !(render_value_text fmt_other err _ _ Hcat).
  rewrite Sprintf_s, Sprintf_s_bytes, Sprintf_quoted.
  rewrite Replace_all by (discriminate || lia).
  now rewrite replace_every_quote.
Qed.

Lemma text_literal_doubles_quotes_witness :
  ["INT"; "VARCHAR"] !! 1%nat = Some "VARCHAR" /\
  classify (normalize "VARCHAR") = Some Text /\
  render_cell fmt_unused None ["INT"; "VARCHAR"] 1 (VString "O'Brien") = Next "'O''Brien'" /\
  render_cell fmt_unused None ["INT"; "VARCHAR"] 1 (VBytes "O'Brien") = Next "'O''Brien'".
Proof.
  split; [reflexivity|]. split; [reflexivity|].
  apply (text_literal_doubles_quotes fmt_unused None ["INT"; "VARCHAR"] 1 "VARCHAR" "O'Brien");
    reflexivity.
Defined.

(** C6: a non-nil cell in a column whose normalized type name is outside
    the table of categories makes the dump end at that cell with the error
    [unsupported type: <name>]: the rows before it are written, its own
    row and the tables after it are not. *)
Theorem unsupported_type_aborts_dump (fmt_other : ascii -> GoValue -> string)
    (env : Env) (dsn : string) (opts : list DumpOption) (db : DB)
    (ts1 : list string) (t : string) (ts2 : list string) (sql : string)
    (tys : list string) (before : list (list GoValue)) (pre : list GoValue)
    (col : GoValue) (post : list GoValue) (after : list (list GoValue))
    (litss : list (list string)) (lits : list string) (buf1 ty : string) :
  connected fmt_other env dsn db ->
  isData (effective_options opts) = true ->
  resolve_tables (effective_options opts) db = Ok (ts1 ++ t :: ts2) ->
  tables_dump fmt_other (effective_options opts) db ts1 (dump_header env) = (buf1, Next tt) ->
  getCreateTableSQL fmt_other db t = Ok sql ->
  table_rows fmt_other db t tys (before ++ (pre ++ col :: post) :: after) ->
  mapM (row_literals fmt_other tys) before = Some litss ->
  row_literals fmt_other tys pre = Some lits ->
  tys !! length pre = Some ty ->
  col <> VNil ->
  classify (normalize ty) = None ->
  run_Dump fmt_other env dsn opts
  = (buf1 +:+ drop_text (effective_options opts) t +:+ structure_text t sql
       +:+ records_header t
       +:+ concat_all (insert_statement t (isIgnoreInsert (effective_options opts)) <$> litss),
     Return (Some (GoError ("unsupported type: " +:+ normalize ty)))).
Proof.
  intros Hconn Hdata Hts Hts1 Hsql Hrows Hb Hp Hty Hcol Hcat.
  apply (Dump_halts_at_cell fmt_other env dsn opts db ts1 t ts2 sql tys before pre col post
           after litss lits buf1 (HReturn (Some (GoError ("unsupported type: " +:+ normalize ty)))));
    try assumption; [|discriminate].
  rewrite (render_cell_non_nil fmt_other None tys _ ty col Hty Hcol).
  rewrite (render_value_unsupported fmt_other None _ col Hcat).
  now rewrite Errorf_unsupported.
Qed.

Lemma unsupported_type_aborts_dump_witness :
  connected fmt_unused shop_env "root@/shop" shop_db /\
  isData (effective_options [WithData; WithTables ["u"; "g"]]) = true /\
  resolve_tables (effective_options [WithData; WithTables ["u"; "g"]]) shop_db
  = Ok (["u"] ++ "g" :: []) /\
  tables_dump fmt_unused (effective_options [WithData; WithTables ["u"; "g"]]) shop_db ["u"]
    (dump_header shop_env)
  = (dump_header shop_env +:+ shop_u_text, Next tt) /\
  getCreateTableSQL fmt_unused shop_db "g"
  = Ok "CREATE TABLE IF NOT EXISTS `g` (`id` int, `shape` geometry)" /\
  table_rows fmt_unused shop_db "g" ["INT"; "GEOMETRY"]
    ([[VInt64 1; VNil]] ++ ([VInt64 2] ++ VBytes "POINT" :: []) :: []) /\
  mapM (row_literals fmt_unused ["INT"; "GEOMETRY"]) [[VInt64 1; VNil]]
  = Some [["1"; "NULL"]] /\
  row_literals fmt_unused ["INT"; "GEOMETRY"] [VInt64 2] = Some ["2"] /\
  ["INT"; "GEOMETRY"] !! length [VInt64 2] = Some "GEOMETRY" /\
  VBytes "POINT" <> VNil /\
  classify (normalize "GEOMETRY") = None /\
  run_Dump fmt_unused shop_env "root@/shop" [WithData; WithTables ["u"; "g"]]
  = (dump_header shop_env +:+ shop_u_text
       +:+ structure_text "g" "CREATE TABLE IF NOT EXISTS `g` (`id` int, `shape` geometry)"
       +:+ records_header "g"
       +:+ insert_statement "g" false ["1"; "NULL"],
     Return (Some (GoError "unsupported type: GEOMETRY"))).
Proof.
  assert (connected fmt_unused shop_env "root@/shop" shop_db) as Hconn.
  { split; [reflexivity|]. exists "shop". split; reflexivity. }
  assert (table_rows fmt_unused shop_db "g" ["INT"; "GEOMETRY"]
            ([[VInt64 1; VNil]] ++ ([VInt64 2] ++ VBytes "POINT" :: []) :: [])) as Hrows.
  { eexists _, _. repeat split; reflexivity. }
  split; [exact Hconn|]. split; [reflexivity|]. split; [reflexivity|].
  split; [vm_compute; reflexivity|]. split; [reflexivity|]. split; [exact Hrows|].
  split; [reflexivity|]. split; [reflexivity|]. split; [reflexivity|].
  split; [discriminate|]. split; [reflexivity|].
  etrans.
  - apply (unsupported_type_aborts_dump fmt_unused shop_env "root@/shop"
             [WithData; WithTables ["u"; "g"]] shop_db ["u"] "g" []
             "CREATE TABLE IF NOT EXISTS `g` (`id` int, `shape` geometry)"
             ["INT"; "GEOMETRY"] [[VInt64 1; VNil]] [VInt64 2] (VBytes "POINT") [] []
             [["1"; "NULL"]] ["2"] (dump_header shop_env +:+ shop_u_text) "GEOMETRY");
      first [exact Hconn | exact Hrows | discriminate | vm_compute; reflexivity].
  - vm_compute. reflexivity.
Defined.

(** C7, as the code has it: classification matches the type name after
    every instance of the exact upper-case text UNSIGNED has been removed,
    and then every space character; other spellings of the qualifier and
    other white space stay. *)
Theorem normalize_exact_word_and_spaces (ty : string) :
  normalize ty = strip_spaces (replace_every "UNSIGNED" "" 0 ty).
Proof.
  unfold normalize.
  rewrite (Replace_all ty) by (discriminate || lia).
  rewrite Replace_all by (discriminate || lia).
  apply replace_every_space.
Qed.

(** C7, as claimed, fails: the lower-case qualifier is kept, and so is a
    tab, and the name then falls outside the table. *)
Lemma normalize_keeps_lowercase_unsigned :
  normalize "INT unsigned" = "INTunsigned" /\
  normalize_claimed "INT unsigned" = "INT" /\
  classify (normalize "INT unsigned") = None /\
  classify (normalize_claimed "INT unsigned") = Some Integer /\
  normalize ("UNSIGNED" +:+ String "009" "INT") = String "009" "INT" /\
  normalize_claimed ("UNSIGNED" +:+ String "009" "INT") = "INT".
Proof. vm_compute. repeat split. Qed.

(** C8: the structure statement has its first CREATE TABLE, and only that
    one, replaced by CREATE TABLE IF NOT EXISTS; the text after it is
    copied as it is, whatever it holds. *)
Theorem create_table_rewritten_once (fmt_other : ascii -> GoValue -> string)
    (db : DB) (table name pre post : string) :
  QueryRow_string2 db (Sprintf fmt_other "SHOW CREATE TABLE `%s`" (VString table))
    = Ok (name, pre +:+ "CREATE TABLE" +:+ post) ->
  (forall k, (k < GoString.len pre)%nat ->
     GoString.HasPrefix (GoString.drop k (pre +:+ "CREATE TABLE" +:+ post)) "CREATE TABLE"
     = false) ->
  getCreateTableSQL fmt_other db table
    = Ok (pre +:+ "CREATE TABLE IF NOT EXISTS" +:+ post).
Proof.
  intros Hq Hfirst. unfold getCreateTableSQL. rewrite Hq. f_equal.
  assert (GoString.Index (pre +:+ "CREATE TABLE" +:+ post) "CREATE TABLE"
          = Some (GoString.len pre)) as Hidx.
  { apply Index_first.
    - rewrite drop_len_app. apply HasPrefix_app.
    - rewrite len_app. lia.
    - exact Hfirst. }
  rewrite (Replace_once _ "CREATE TABLE" "CREATE TABLE IF NOT EXISTS" _
             ltac:(discriminate) ltac:(discriminate) Hidx).
  rewrite take_len_app, drop_add, drop_len_app.
  now rewrite (drop_len_app "CREATE TABLE" post).
Qed.

Lemma create_table_rewritten_once_witness :
  QueryRow_string2 shop_db (Sprintf fmt_unused "SHOW CREATE TABLE `%s`" (VString "c"))
  = Ok ("c", "" +:+ "CREATE TABLE" +:+ " `c` (`n` int COMMENT 'CREATE TABLE')") /\
  (forall k, (k < GoString.len "")%nat ->
     GoString.HasPrefix
       (GoString.drop k ("" +:+ "CREATE TABLE" +:+ " `c` (`n` int COMMENT 'CREATE TABLE')"))
       "CREATE TABLE" = false) /\
  getCreateTableSQL fmt_unused shop_db "c"
  = Ok "CREATE TABLE IF NOT EXISTS `c` (`n` int COMMENT 'CREATE TABLE')".
Proof.
  assert (forall k, (k < GoString.len "")%nat ->
            GoString.HasPrefix
              (GoString.drop k ("" +:+ "CREATE TABLE" +:+ " `c` (`n` int COMMENT 'CREATE TABLE')"))
              "CREATE TABLE" = false) as Hfirst.
  { intros k Hk. exfalso. revert Hk. apply Nat.nlt_0_r. }
  split; [reflexivity|]. split; [exact Hfirst|].
  apply (create_table_rewritten_once fmt_unused shop_db "c" "c" ""
           " `c` (`n` int COMMENT 'CREATE TABLE')"); [reflexivity|exact Hfirst].
Defined.

(** C9: a non-nil value that is not a [bool], in a column of the Boolean
    category, makes the rendering panic on the type assertion [col.(bool)];
    no other category panics, whatever the value. *)
Theorem boolean_mismatch_panics (fmt_other : ascii -> GoValue -> string)
    (err : option error) (tys : list string) (i : nat) (ty : string) (col : GoValue) :
  tys !! i = Some ty ->
  classify (normalize ty) = Some Boolean ->
  col <> VNil ->
  (forall b, col <> VBool b) ->
  render_cell fmt_other err tys i col
  = Panic ("interface conversion: interface {} is " +:+ type_name col +:+ ", not bool") /\
  (forall name col' r,
     classify name <> Some Boolean -> render_value fmt_other err name col' <> Panic r).
Proof.
  intros Hty Hcat Hnil Hbool. split.
  - rewrite (render_cell_non_nil fmt_other err tys i ty col Hty Hnil).
    rewrite (render_value_boolean fmt_other err _ col Hcat).
    destruct col; try reflexivity. now destruct (Hbool b).
  - intros name col' r. apply render_value_no_panic.
Qed.

Lemma boolean_mismatch_panics_witness :
  ["BOOL"] !! 0%nat = Some "BOOL" /\
  classify (normalize "BOOL") = Some Boolean /\
  render_cell fmt_unused None ["BOOL"] 0 (VInt64 1)
  = Panic "interface conversion: interface {} is int64, not bool".
Proof.
  split; [reflexivity|]. split; [reflexivity|].
  apply (boolean_mismatch_panics fmt_unused None ["BOOL"] 0 "BOOL" (VInt64 1));
    first [reflexivity | discriminate].
Defined.

(** C10: the nil test comes before the type switch: a nil cell is
    rendered as NULL whatever its column's type name, a row of nil cells
    gives a statement of NULLs whatever the column types, and the
    unsupported-type error takes a non-nil cell. *)
Theorem null_before_classification (fmt_other : ascii -> GoValue -> string)
    (err : option error) (tys : list string) (i : nat) :
  render_cell fmt_other err tys i VNil = Next "NULL" /\
  (forall table ignoreInsert n buf,
     rows_loop fmt_other err table ignoreInsert tys [replicate n VNil] buf
     = (buf +:+ insert_statement table ignoreInsert (replicate n "NULL"), Next tt)) /\
  (forall ty col,
     tys !! i = Some ty -> classify (normalize ty) = None -> col <> VNil ->
     render_cell fmt_other err tys i col
     = Return (Some (GoError ("unsupported type: " +:+ normalize ty)))).
Proof.
  split; [reflexivity|]. split.
  - intros table ig n buf.
    rewrite (rows_loop_literals fmt_other err table ig tys _ [replicate n "NULL"]).
    + cbn [fmap list_fmap concat_all foldr]. now rewrite sapp_nil_r.
    + cbn [mapM]. unfold row_literals. now rewrite literals_from_nils.
  - intros ty col Hty Hcat Hcol.
    rewrite (render_cell_non_nil fmt_other err tys i ty col Hty Hcol).
    rewrite (render_value_unsupported fmt_other err _ col Hcat).
    now rewrite Errorf_unsupported.
Qed.

(** ** Facts for the further properties *)

Section OptionFacts.

Lemma apply_options_snoc (opts : list DumpOption) (opt : DumpOption) :
  apply_options (opts ++ [opt]) = opt (apply_options opts).
Proof. unfold apply_options. now rewrite foldl_app. Qed.

Lemma bool_decide_elem_snoc (x y : OptionName) (l : list OptionName) :
  bool_decide (x ∈ l ++ [y]) = bool_decide (x ∈ l) || bool_decide (x = y).
Proof.
  rewrite <- bool_decide_or. apply bool_decide_ext.
  rewrite elem_of_app, list_elem_of_singleton. tauto.
Qed.

Lemma last_given_snoc {A : Type} (pick : OptionName -> option A) (l : list OptionName)
    (x : OptionName) :
  last_given pick (l ++ [x])
  = match pick x with Some a => Some a | None => last_given pick l end.
Proof.
  unfold last_given. rewrite omap_app. simpl. destruct (pick x) as [a|].
  - apply last_snoc.
  - now rewrite app_nil_r.
Qed.

End OptionFacts.

Section LiteralFacts.
Import GoString.

Lemma read_quoted_body_doubled (s : string) :
  read_quoted_body (double_quotes s +:+ "'") = Some s.
Proof.
  induction s as [|c s IH]; [reflexivity|].
  cbn [double_quotes]. destruct (Ascii.eqb c "'") eqn:E.
  - apply Ascii.eqb_eq in E as ->. rewrite !sapp_cons.
    cbn [read_quoted_body]. rewrite Ascii.eqb_refl. now rewrite IH.
  - rewrite sapp_cons. cbn [read_quoted_body]. rewrite E. now rewrite IH.
Qed.

Lemma unhex_byte (c : ascii) :
  let b := byte_val c in
  hex_val (Fmt.hex_digit (b / 16)) = Some (b / 16) /\
  hex_val (Fmt.hex_digit (b mod 16)) = Some (b mod 16) /\
  ascii_of_N (Z.to_N (16 * (b / 16) + b mod 16)) = c.
Proof.
  destruct c as [[] [] [] [] [] [] [] []]; vm_compute; repeat split.
Qed.

Lemma unhex_fmtSbx (s : string) : unhex (Fmt.fmtSbx_upper s) = Some s.
Proof.
  induction s as [|c s IH]; [reflexivity|].
  cbn [Fmt.fmtSbx_upper unhex]. cbv zeta.
  destruct (unhex_byte c) as (-> & -> & H). rewrite IH. now rewrite H.
Qed.

Lemma len_fmtSbx (s : string) : len (Fmt.fmtSbx_upper s) = (2 * len s)%nat.
Proof.
  induction s as [|c s IH]; [reflexivity|].
  unfold len in *. cbn [Fmt.fmtSbx_upper String.length]. cbv zeta.
  cbn [String.length]. rewrite IH. lia.
Qed.

Lemma has_byte_strip_spaces (s : string) : has_byte " " (strip_spaces s) = false.
Proof.
  induction s as [|c s IH]; [reflexivity|].
  cbn [strip_spaces]. destruct (Ascii.eqb c " ") eqn:E; [exact IH|].
  cbn [has_byte]. now rewrite E, IH.
Qed.

Lemma replace_every_prefix (old new r : string) :
  old <> "" ->
  replace_every old new 0 (old +:+ r) = new +:+ replace_every old new 0 r.
Proof.
  intros Hold. destruct old as [|c old]; [congruence|].
  rewrite sapp_cons, replace_every_cons, <- sapp_cons, HasPrefix_app.
  rewrite replace_every_skip. f_equal. f_equal.
  replace (len (String c old) - 1)%nat with (len old) by (unfold len; simpl; lia).
  apply drop_len_app.
Qed.

Lemma is_case_In (tag : string) (labels : list string) :
  is_case tag labels = true -> In tag labels.
Proof.
  unfold is_case. intros H. apply existsb_exists in H as (x & Hin & Heq).
  now apply String.eqb_eq in Heq as ->.
Qed.

End LiteralFacts.

Section DigitFacts.
Import GoString.

Lemma digit_val_digit (d : Z) : 0 <= d <= 9 -> digit_val (Fmt.digit d) = Some d.
Proof.
  intros H.
  assert (d = 0 \/ d = 1 \/ d = 2 \/ d = 3 \/ d = 4 \/ d = 5 \/ d = 6 \/ d = 7 \/ d = 8 \/ d = 9)
    as Hd by lia.
  repeat destruct Hd as [->|Hd]; try subst d; reflexivity.
Qed.

Lemma digits_value_app (s t : string) (acc : Z) :
  digits_value acc (s +:+ t)
  = match digits_value acc s with
    | Some v => digits_value v t
    | None => None
    end.
Proof.
  revert acc. induction s as [|c s IH]; intros acc; [reflexivity|].
  rewrite sapp_cons. cbn [digits_value]. destruct (digit_val c); [apply IH|reflexivity].
Qed.

(** Reading what the digit loop wrote gives the number back. *)
Lemma digits_loop_value (fuel : nat) :
  forall (u : Z) (acc : string),
  0 <= u < 10 ^ Z.of_nat fuel ->
  digits_value 0 (Fmt.digits_loop fuel u acc) = digits_value u acc.
Proof.
  induction fuel as [|fuel IH]; intros u acc Hu.
  - simpl in Hu. assert (u = 0) as -> by lia. reflexivity.
  - cbn [Fmt.digits_loop]. destruct (u <? 10) eqn:E.
    + apply Z.ltb_lt in E. cbn [digits_value]. rewrite digit_val_digit by lia.
      now rewrite Z.mul_0_r, Z.add_0_l.
    + apply Z.ltb_ge in E. cbv zeta.
      rewrite Nat2Z.inj_succ, Z.pow_succ_r in Hu by lia.
      rewrite IH.
      * cbn [digits_value]. rewrite digit_val_digit.
        -- f_equal. lia.
        -- pose proof (Z.mod_pos_bound u 10 ltac:(lia)).
           pose proof (Z.div_mod u 10 ltac:(lia)). lia.
      * split; [apply Z.div_pos; lia|]. apply Z.div_lt_upper_bound; lia.
  Qed.

Lemma digits_fuel (u : Z) : 0 <= u -> u < 10 ^ Z.of_nat (S (Z.to_nat (Z.log2 u))).
Proof.
  intros Hu. rewrite Nat2Z.inj_succ, Z2Nat.id by apply Z.log2_nonneg.
  destruct (Z.eq_dec u 0) as [->|Hne]; [reflexivity|].
  pose proof (Z.log2_spec u ltac:(lia)) as [_ Hlt].
  assert (2 ^ Z.succ (Z.log2 u) <= 10 ^ Z.succ (Z.log2 u)).
  { apply Z.pow_le_mono_l. lia. }
  lia.
Qed.

Lemma digits_value_digits (u : Z) : 0 <= u -> digits_value 0 (Fmt.digits u) = Some u.
Proof.
  intros Hu. unfold Fmt.digits. rewrite digits_loop_value; [reflexivity|].
  split; [exact Hu|now apply digits_fuel].
Qed.

Lemma digits_loop_length (fuel : nat) :
  forall (u : Z) (k : nat) (acc : string),
  0 <= u < 10 ^ Z.of_nat k -> (1 <= k)%nat ->
  (len (Fmt.digits_loop fuel u acc) <= k + len acc)%nat.
Proof.
  induction fuel as [|fuel IH]; intros u k acc Hu Hk; cbn [Fmt.digits_loop]; [lia|].
  destruct (u <? 10) eqn:E.
  - unfold len. cbn [String.length]. lia.
  - apply Z.ltb_ge in E. cbv zeta. destruct k as [|[|k]]; [lia| |].
    + simpl in Hu. lia.
    + rewrite Nat2Z.inj_succ, Z.pow_succ_r in Hu by lia.
      etrans.
      * apply (IH (u / 10) (S k)); [|lia].
        split; [apply Z.div_pos; lia|]. apply Z.div_lt_upper_bound; lia.
      * unfold len. cbn [String.length]. lia.
Qed.

Lemma digits_length (u : Z) (k : nat) :
  0 <= u < 10 ^ Z.of_nat k -> (1 <= k)%nat -> (len (Fmt.digits u) <= k)%nat.
Proof.
  intros Hu Hk. unfold Fmt.digits.
  pose proof (digits_loop_length (S (Z.to_nat (Z.log2 u))) u k "" Hu Hk) as H.
  change (len "") with 0%nat in H. lia.
Qed.

Lemma len_zeros (n : nat) : len (Fmt.zeros n) = n.
Proof. induction n as [|n IH]; [reflexivity|]. unfold len in *. simpl. now rewrite IH. Qed.

Lemma digits_value_zeros (n : nat) (acc : Z) (t : string) :
  digits_value acc (Fmt.zeros n +:+ t) = digits_value (acc * 10 ^ Z.of_nat n) t.
Proof.
  revert acc. induction n as [|n IH]; intros acc.
  - simpl. now rewrite Z.mul_1_r.
  - cbn [Fmt.zeros]. rewrite sapp_cons. cbn [digits_value].
    change (digit_val "0"%char) with (Some 0). cbv iota beta. rewrite IH. f_equal.
    rewrite Nat2Z.inj_succ, Z.pow_succ_r by lia. lia.
Qed.

(** A number of at most [width] digits padded to exactly [width]. *)
Lemma pad_left_digits (width : nat) (u : Z) :
  0 <= u < 10 ^ Z.of_nat width -> (1 <= width)%nat ->
  len (Fmt.pad_left width (Fmt.digits u)) = width /\
  digits_value 0 (Fmt.pad_left width (Fmt.digits u)) = Some u.
Proof.
  intros Hu Hw. unfold Fmt.pad_left. pose proof (digits_length u width Hu Hw) as Hlen.
  split.
  - rewrite len_app, len_zeros. lia.
  - rewrite digits_value_zeros, Z.mul_0_l. apply digits_value_digits. lia.
Qed.

Lemma digits_nonempty (u : Z) : Fmt.digits u <> "".
Proof.
  unfold Fmt.digits. generalize (Z.to_nat (Z.log2 u)). intros fuel.
  assert (forall f v acc, acc <> "" -> Fmt.digits_loop f v acc <> "") as H.
  { induction f as [|f IH]; intros v acc Hacc; cbn [Fmt.digits_loop]; [exact Hacc|].
    destruct (v <? 10); [discriminate|]. apply IH. discriminate. }
  cbn [Fmt.digits_loop]. destruct (u <? 10); [discriminate|]. apply H. discriminate.
Qed.

(** Reading what [%d] wrote gives the integer back. *)
Lemma numeral_value_fmtInteger (n : Z) : numeral_value (Fmt.fmtInteger n) = Some n.
Proof.
  unfold Fmt.fmtInteger. destruct (n <? 0) eqn:E.
  - apply Z.ltb_lt in E. cbn [numeral_value]. rewrite Ascii.eqb_refl.
    destruct (Fmt.digits (- n)) as [|c r] eqn:Hd; [now apply digits_nonempty in Hd|].
    rewrite <- Hd, digits_value_digits by lia. simpl. f_equal. lia.
  - apply Z.ltb_ge in E. pose proof (digits_value_digits n E) as Hv.
    destruct (Fmt.digits n) as [|c r] eqn:Hd; [now apply digits_nonempty in Hd|].
    cbn [numeral_value]. destruct (Ascii.eqb c "-") eqn:Ec; [|exact Hv].
    apply Ascii.eqb_eq in Ec as ->. discriminate.
Qed.

End DigitFacts.

Section DumpFacts.
Variable fmt_other : ascii -> GoValue -> string.

Lemma tables_loop_all (ts acc : list string) :
  tables_loop (Ok <$> ts) acc = Ok (acc ++ ts).
Proof.
  revert acc. induction ts as [|t ts IH]; intros acc; cbn [fmap list_fmap tables_loop].
  - now rewrite app_nil_r.
  - rewrite IH. now rewrite <- app_assoc.
Qed.

Lemma tables_loop_fails (ts : list string) (e : error) (rest : list (result string))
    (acc : list string) :
  tables_loop ((Ok <$> ts) ++ Failed e :: rest) acc = Failed e.
Proof.
  revert acc. induction ts as [|t ts IH]; intros acc; [reflexivity|].
  cbn [fmap list_fmap app tables_loop]. apply IH.
Qed.

Lemma scan_loop_fails (vs : list (list GoValue)) (e : error)
    (rest : list (result (list GoValue))) (acc : list (list GoValue)) (err : option error) :
  scan_loop ((Ok <$> vs) ++ Failed e :: rest) acc err = Return (Some e).
Proof.
  revert acc err. induction vs as [|v vs IH]; intros acc err; [reflexivity|].
  cbn [fmap list_fmap app scan_loop]. apply IH.
Qed.

Lemma Sprintf_show_create (t : string) :
  Sprintf fmt_other "SHOW CREATE TABLE `%s`" (VString t) = show_create_query t.
Proof. reflexivity. Qed.

Lemma Sprintf_select (t : string) :
  Sprintf fmt_other "SELECT * FROM `%s`" (VString t) = select_query t.
Proof. reflexivity. Qed.

(** A dump without data writes the structure and goes on. *)
Lemma dump_table_structure (o : dumpOption) (db : DB) (table sql buf : string) :
  isData o = false ->
  getCreateTableSQL fmt_other db table = Ok sql ->
  dump_table fmt_other o db table buf
  = (buf +:+ drop_text o table +:+ structure_text table sql, Next tt).
Proof.
  intros Hdata Hsql. unfold dump_table. rewrite Hdata.
  unfold mbind at 1, M_bind.
  assert ((if isDropTable o
           then WriteString (Sprintf fmt_other ("DROP TABLE IF EXISTS `%s`;" +:+ nl)
                               (VString table))
           else mret tt) buf = (buf +:+ drop_text o table, Next tt)) as ->.
  { unfold drop_text. destruct (isDropTable o).
    - unfold WriteString. now rewrite Sprintf_drop.
    - unfold mret, M_ret. now rewrite sapp_nil_r. }
  unfold mbind, M_bind, call.
  rewrite (writeTableStruct_ok fmt_other db table sql _ Hsql).
  unfold mret, M_ret. now rewrite !sapp_assoc.
Qed.

Lemma dump_table_dumps (o : dumpOption) (db : DB) (t : string)
    (info : string * list (list string)) (buf : string) :
  table_dumps fmt_other o db t info ->
  dump_table fmt_other o db t buf = (buf +:+ table_text o t (fst info) (snd info), Next tt).
Proof.
  intros [Hsql Hdata]. unfold table_text. destruct (isData o) eqn:E.
  - destruct (Hdata eq_refl) as (tys & values & Hrows & Hl).
    rewrite (dump_table_data fmt_other o db t _ buf E Hsql).
    rewrite (writeTableData_literals fmt_other db t _ tys values _ _ Hrows Hl).
    now rewrite !sapp_assoc.
  - rewrite (dump_table_structure o db t _ buf E Hsql). now rewrite sapp_nil_r, ?sapp_assoc.
Qed.

Lemma tables_dump_dumps (o : dumpOption) (db : DB) (ts : list string)
    (infos : list (string * list (list string))) :
  Forall2 (table_dumps fmt_other o db) ts infos ->
  forall buf,
  tables_dump fmt_other o db ts buf = (buf +:+ tables_text o ts infos, Next tt).
Proof.
  induction 1 as [|t info ts infos Ht _ IH]; intros buf.
  - unfold tables_text. simpl. now rewrite sapp_nil_r.
  - cbn [tables_dump]. unfold mbind, M_bind. rewrite (dump_table_dumps o db t info buf Ht).
    rewrite IH. unfold tables_text. cbn [zip_with concat_all foldr].
    now rewrite !sapp_assoc.
Qed.

End DumpFacts.

Section AppendFacts.
Variable fmt_other : ascii -> GoValue -> string.

Lemma appends_WriteString (s : string) : appends (WriteString s).
Proof. intros buf. now exists s. Qed.

Lemma appends_mret {A : Type} (a : A) : appends (mret a : M A).
Proof. intros buf. exists "". cbn. now rewrite sapp_nil_r. Qed.

Lemma appends_return {A : Type} (e : option error) : appends (return_ e : M A).
Proof. intros buf. exists "". cbn. now rewrite sapp_nil_r. Qed.

Lemma appends_lift {A : Type} (c : ctl A) : appends (lift c).
Proof. intros buf. exists "". cbn. now rewrite sapp_nil_r. Qed.

Lemma appends_bind {A B : Type} (m : M A) (k : A -> M B) :
  appends m -> (forall a, appends (k a)) -> appends (m ≫= k).
Proof.
  intros Hm Hk buf. destruct (Hm buf) as [w1 H1].
  unfold mbind, M_bind. destruct (m buf) as [buf' [a|e|r]]; cbn [fst] in *; subst buf'.
  - destruct (Hk a (buf +:+ w1)) as [w2 H2]. exists (w1 +:+ w2).
    now rewrite H2, sapp_assoc.
  - now exists w1.
  - now exists w1.
Qed.

Lemma appends_call (body : M unit) : appends body -> appends (call body).
Proof.
  intros Hb buf. destruct (Hb buf) as [w H]. exists w. unfold call.
  now destruct (body buf) as [buf' [a|e|r]].
Qed.

Ltac appends_step :=
  repeat lazymatch goal with
  | |- appends (mbind _ _) => apply appends_bind; [|intros ?]
  | |- appends (WriteString _) => apply appends_WriteString
  | |- appends (mret _) => apply appends_mret
  | |- appends (return_ _) => apply appends_return
  | |- appends (lift _) => apply appends_lift
  | |- appends (call _) => apply appends_call
  end.

Lemma appends_rows_loop (err : option error) (table : string) (ig : bool)
    (tys : list string) (values : list (list GoValue)) :
  appends (rows_loop fmt_other err table ig tys values).
Proof.
  induction values as [|row values IH]; cbn [rows_loop]; appends_step. exact IH.
Qed.

Lemma appends_writeTableData (db : DB) (table : string) (ig : bool) :
  appends (writeTableData fmt_other db table ig).
Proof.
  unfold writeTableData. appends_step.
  destruct (Query db _) as [lineRows|e]; appends_step.
  destruct (Columns lineRows) as [columns|e]; appends_step.
  destruct (ColumnTypes lineRows) as [columnTypes|e]; appends_step.
  destruct a2 as [values err]. appends_step. apply appends_rows_loop.
Qed.

Lemma appends_writeTableStruct (db : DB) (table : string) :
  appends (writeTableStruct fmt_other db table).
Proof.
  unfold writeTableStruct. appends_step.
  destruct (getCreateTableSQL fmt_other db table) as [sql|e]; appends_step.
Qed.

Lemma appends_dump_table (o : dumpOption) (db : DB) (table : string) :
  appends (dump_table fmt_other o db table).
Proof.
  unfold dump_table. apply appends_bind; [destruct (isDropTable o); appends_step|intros _].
  apply appends_bind; [apply appends_call, appends_writeTableStruct|intros [e|]];
    [appends_step|].
  destruct (isData o); appends_step.
  - apply appends_writeTableData.
  - destruct a; appends_step.
Qed.

Lemma appends_tables_dump (o : dumpOption) (db : DB) (ts : list string) :
  appends (tables_dump fmt_other o db ts).
Proof.
  induction ts as [|t ts IH]; cbn [tables_dump]; appends_step;
    [apply appends_dump_table|exact IH].
Qed.

End AppendFacts.

Section FailureFacts.
Variable fmt_other : ascii -> GoValue -> string.

Lemma Sprintf_use (dbName : string) :
  Sprintf fmt_other "USE `%s`" (VString dbName) = use_query dbName.
Proof. reflexivity. Qed.

Lemma getAllTables_fails (db : DB) (e : error) :
  show_tables_fails db e -> getAllTables db = Failed e.
Proof.
  unfold getAllTables. intros [H|(rows & ts & rest & H & Hs)]; rewrite H; [reflexivity|].
  rewrite Hs. apply tables_loop_fails.
Qed.

Lemma Dump_header (env : Env) (dsn : string) (opts : list DumpOption) (buf : string) :
  exists k : M unit,
    Dump fmt_other env dsn opts buf = k (buf +:+ dump_header env) /\
    k = match sql_Open env dsn with
        | Failed e => return_ (Some e)
        | Ok db =>
            match GetDBNameFromDSN env dsn with
            | Failed e => return_ (Some e)
            | Ok dbName =>
                match Exec db (use_query dbName) with
                | Some e => return_ (Some e)
                | None =>
                    match resolve_tables (effective_options opts) db with
                    | Failed e => return_ (Some e)
                    | Ok tables =>
                        tables_dump fmt_other (effective_options opts) db tables;;
                        WriteString banner;;
                        WriteString ("-- Dumped by mysqldump" +:+ nl);;
                        WriteString ("-- Cost Time: " +:+ since_String env +:+ nl);;
                        WriteString banner;;
                        return_ None
                    end
                end
            end
        end.
Proof.
  eexists. split; [|reflexivity].
  unfold Dump. cbv zeta. unfold mbind at 1 2 3 4 5, M_bind, WriteString.
  unfold dump_header. now rewrite !sapp_assoc.
Qed.

Lemma writeTableData_select_fails (db : DB) (table : string) (ig : bool) (e : error)
    (buf : string) :
  select_fails db table e ->
  writeTableData fmt_other db table ig buf = (buf +:+ records_header table, Return (Some e)).
Proof.
  unfold select_fails, writeTableData. intros H.
  unfold mbind at 1 2 3, M_bind, WriteString.
  rewrite Sprintf_records, Sprintf_select.
  replace (((buf +:+ banner) +:+ "-- Records of " +:+ table +:+ nl) +:+ banner)
    with (buf +:+ records_header table)
    by (unfold records_header; now rewrite !sapp_assoc).
  destruct (Query db (select_query table)) as [lineRows|e']; [|now subst].
  destruct (Columns lineRows) as [columns|e']; [|now subst].
  destruct (ColumnTypes lineRows) as [tys|e']; [|now subst].
  destruct H as (values & rest & ->).
  unfold mbind, M_bind, lift. now rewrite scan_loop_fails.
Qed.

Lemma writeTableStruct_fails (db : DB) (table : string) (e : error) (buf : string) :
  QueryRow_string2 db (show_create_query table) = Failed e ->
  writeTableStruct fmt_other db table buf
  = (buf +:+ banner +:+ "-- Table structure for " +:+ table +:+ nl +:+ banner,
     Return (Some e)).
Proof.
  intros H. unfold writeTableStruct, getCreateTableSQL. rewrite Sprintf_show_create, H.
  unfold mbind, M_bind, WriteString, return_. rewrite Sprintf_structure.
  now rewrite !sapp_assoc.
Qed.

Lemma dump_table_drop (o : dumpOption) (table buf : string) :
  (if isDropTable o
   then WriteString (Sprintf fmt_other ("DROP TABLE IF EXISTS `%s`;" +:+ nl) (VString table))
   else mret tt) buf = (buf +:+ drop_text o table, Next tt).
Proof.
  unfold drop_text. destruct (isDropTable o).
  - unfold WriteString. now rewrite Sprintf_drop.
  - unfold mret, M_ret. now rewrite sapp_nil_r.
Qed.

Lemma dump_table_struct_fails (o : dumpOption) (db : DB) (table : string) (e : error)
    (buf : string) :
  QueryRow_string2 db (show_create_query table) = Failed e ->
  dump_table fmt_other o db table buf
  = (buf +:+ drop_text o table +:+ banner +:+ "-- Table structure for " +:+ table
       +:+ nl +:+ banner,
     Return (Some e)).
Proof.
  intros H. unfold dump_table. unfold mbind at 1, M_bind. rewrite dump_table_drop.
  unfold mbind, M_bind, call. rewrite (writeTableStruct_fails db table e _ H).
  unfold return_. now rewrite !sapp_assoc.
Qed.

Lemma dump_table_select_fails (o : dumpOption) (db : DB) (table sql : string) (e : error)
    (buf : string) :
  isData o = true ->
  getCreateTableSQL fmt_other db table = Ok sql ->
  select_fails db table e ->
  dump_table fmt_other o db table buf
  = (buf +:+ drop_text o table +:+ structure_text table sql +:+ records_header table,
     Return (Some e)).
Proof.
  intros Hdata Hsql Hsel. rewrite (dump_table_data fmt_other o db table sql buf Hdata Hsql).
  rewrite (writeTableData_select_fails db table _ e _ Hsel). now rewrite !sapp_assoc.
Qed.

(** The dump stops at the first table whose block returns. *)
Lemma Dump_stops_at (env : Env) (dsn : string) (opts : list DumpOption) (db : DB)
    (ts rest : list string) (t : string) (infos : list (string * list (list string)))
    (written : string) (e : option error) :
  connected fmt_other env dsn db ->
  resolve_tables (effective_options opts) db = Ok (ts ++ t :: rest) ->
  Forall2 (table_dumps fmt_other (effective_options opts) db) ts infos ->
  (forall buf, dump_table fmt_other (effective_options opts) db t buf
               = (buf +:+ written, Return e)) ->
  run_Dump fmt_other env dsn opts
  = (dump_header env +:+ tables_text (effective_options opts) ts infos +:+ written,
     Return e).
Proof.
  intros Hconn Hts Hdumps Ht. unfold run_Dump.
  rewrite (Dump_tables fmt_other env dsn opts db _ _ Hconn Hts).
  rewrite tables_dump_app, (tables_dump_dumps fmt_other _ db ts infos Hdumps).
  cbn [tables_dump]. unfold mbind, M_bind. rewrite Ht.
  now rewrite sapp_nil_l, !sapp_assoc.
Qed.

End FailureFacts.

Section ReadFacts.
Variable fmt_other : ascii -> GoValue -> string.

Lemma dump_table_same_answers (o : dumpOption) (db1 db2 : DB) (t : string) (buf : string) :
  same_answers o db1 db2 t ->
  dump_table fmt_other o db1 t buf = dump_table fmt_other o db2 t buf.
Proof.
  intros [Hs Hd]. unfold dump_table, writeTableStruct, getCreateTableSQL.
  rewrite !Sprintf_show_create, Hs.
  destruct (isData o); [|reflexivity].
  unfold writeTableData. rewrite !Sprintf_select, (Hd eq_refl). reflexivity.
Qed.

Lemma tables_dump_same_answers (o : dumpOption) (db1 db2 : DB) (ts : list string) :
  Forall (same_answers o db1 db2) ts ->
  forall buf, tables_dump fmt_other o db1 ts buf = tables_dump fmt_other o db2 ts buf.
Proof.
  induction 1 as [|t ts Ht _ IH]; intros buf; [reflexivity|].
  cbn [tables_dump]. unfold mbind, M_bind.
  rewrite (dump_table_same_answers o db1 db2 t buf Ht).
  destruct (dump_table fmt_other o db2 t buf) as [buf' [[]|e|r]]; [apply IH|reflexivity..].
Qed.

End ReadFacts.

Section NormalizeFacts.
Import GoString.

Lemma normalize_strip (ty : string) :
  normalize ty = strip_spaces (replace_every "UNSIGNED" "" 0 ty).
Proof.
  unfold normalize.
  rewrite (Replace_all ty) by (discriminate || lia).
  rewrite Replace_all by (discriminate || lia).
  apply replace_every_space.
Qed.

Lemma normalize_unsigned_prefix (name : string) :
  normalize ("UNSIGNED " +:+ name) = normalize name.
Proof.
  rewrite !normalize_strip.
  change ("UNSIGNED " +:+ name) with ("UNSIGNED" +:+ String " " name).
  rewrite replace_every_prefix by discriminate.
  rewrite sapp_nil_l, replace_every_cons.
  change (HasPrefix (String " " name) "UNSIGNED") with false. cbv iota.
  reflexivity.
Qed.

(** The names of the category table hold neither the qualifier nor a
    space. *)
Lemma classify_normalize (name : string) (c : ValueCategory) :
  classify name = Some c -> normalize name = name.
Proof.
  unfold classify.
  repeat match goal with
         | |- context [is_case ?t ?l] =>
             let E := fresh "E" in
             destruct (is_case t l) eqn:E;
             [intros _; apply is_case_In in E; simpl in E;
              repeat destruct E as [<-|E]; solve [reflexivity | contradiction]|clear E]
         end.
  discriminate.
Qed.

End NormalizeFacts.

Section ReadBackFacts.
Import GoString.
Variable fmt_other : ascii -> GoValue -> string.

Lemma render_value_float (err : option error) (name : string) (col : GoValue) :
  classify name = Some Float ->
  render_value fmt_other err name col
  = match col with
    | VBytes bs => Next bs
    | _ => Next (Sprintf fmt_other "%f" col)
    end.
Proof. switch_branch. Qed.

Lemma render_value_binary (err : option error) (name : string) (col : GoValue) :
  classify name = Some Binary ->
  render_value fmt_other err name col = Next (Sprintf fmt_other "0x%X" col).
Proof. switch_branch. Qed.

Lemma render_value_verbatim (err : option error) (name : string) (col : GoValue) :
  classify name = Some EnumOrSet \/ classify name = Some Json ->
  render_value fmt_other err name col = Next (Sprintf fmt_other "'%s'" col).
Proof. intros [H|H]; revert H; switch_branch. Qed.

Lemma render_value_date (err : option error) (name : string) (t : Time) :
  classify name = Some Date ->
  render_value fmt_other err name (VTime t)
  = Next ("'" +:+ Fmt.Format_date t +:+ "'").
Proof. switch_branch. Qed.

Lemma render_value_datetime (err : option error) (name : string) (t : Time) :
  classify name = Some DateTime \/ classify name = Some Timestamp ->
  render_value fmt_other err name (VTime t)
  = Next ("'" +:+ Fmt.Format_datetime t +:+ "'").
Proof. intros [H|H]; revert H; switch_branch. Qed.

Lemma Sprintf_f (x : float) :
  Sprintf fmt_other "%f" (VFloat32 x) = Fmt.fmtFloat_f x /\
  Sprintf fmt_other "%f" (VFloat64 x) = Fmt.fmtFloat_f x.
Proof.
  split.
  - change (Fmt.fmtFloat_f x +:+ "" = Fmt.fmtFloat_f x). apply sapp_nil_r.
  - change (Fmt.fmtFloat_f x +:+ "" = Fmt.fmtFloat_f x). apply sapp_nil_r.
Qed.

Lemma Sprintf_X (s : string) :
  Sprintf fmt_other "0x%X" (VBytes s) = "0x" +:+ Fmt.fmtSbx_upper s /\
  Sprintf fmt_other "0x%X" (VString s) = "0x" +:+ Fmt.fmtSbx_upper s.
Proof.
  split.
  - change ("0x" +:+ Fmt.fmtSbx_upper s +:+ "" = "0x" +:+ Fmt.fmtSbx_upper s).
    now rewrite sapp_nil_r.
  - change ("0x" +:+ Fmt.fmtSbx_upper s +:+ "" = "0x" +:+ Fmt.fmtSbx_upper s).
    now rewrite sapp_nil_r.
Qed.

Lemma Sprintf_quoted_bytes (s : string) :
  Sprintf fmt_other "'%s'" (VBytes s) = "'" +:+ s +:+ "'".
Proof. reflexivity. Qed.

(** A quoted body with a quote in it reads as something shorter. *)
Lemma read_quoted_body_shorter (n : nat) :
  forall s r : string,
  (len s <= n)%nat ->
  read_quoted_body (s +:+ "'") = Some r ->
  (len r <= len s)%nat /\ (has_byte "'" s = true -> (len r < len s)%nat).
Proof.
  induction n as [|n IH]; intros s r Hn.
  - destruct s; [|simpl in Hn; lia]. intros [= <-]. split; [reflexivity|discriminate].
  - destruct s as [|c s]; [intros [= <-]; split; [reflexivity|discriminate]|].
    rewrite sapp_cons. cbn [read_quoted_body has_byte]. simpl in Hn.
    destruct (Ascii.eqb c "'") eqn:E.
    + destruct s as [|d s]; [discriminate|]. rewrite sapp_cons.
      destruct (Ascii.eqb d "'"); [|discriminate].
      destruct (read_quoted_body (s +:+ "'")) as [r'|] eqn:Hr; [|discriminate].
      intros [= <-]. simpl in Hn.
      destruct (IH s r' ltac:(lia) Hr) as [Hle _]. simpl. split; [lia|intros _; lia].
    + destruct (read_quoted_body (s +:+ "'")) as [r'|] eqn:Hr; [|discriminate].
      intros [= <-]. destruct (IH s r' ltac:(lia) Hr) as [Hle Hlt].
      simpl. split; [lia|]. intros H. apply Hlt in H. lia.
Qed.

Lemma double_quotes_plain (s : string) : has_byte "'" s = false -> double_quotes s = s.
Proof.
  induction s as [|c s IH]; [reflexivity|]. cbn [has_byte double_quotes].
  destruct (Ascii.eqb c "'"); [discriminate|]. intros H. now rewrite IH.
Qed.

Lemma read_verbatim (s : string) :
  read_text_literal ("'" +:+ s +:+ "'") = Some s <-> has_byte "'" s = false.
Proof.
  change ("'" +:+ s +:+ "'") with (String "'" ("" +:+ s +:+ "'")).
  rewrite sapp_nil_l. cbn [read_text_literal]. rewrite Ascii.eqb_refl. split.
  - intros H. destruct (has_byte "'" s) eqn:E; [|reflexivity].
    destruct (read_quoted_body_shorter (len s) s s (le_n _) H) as [_ Hlt].
    specialize (Hlt E). lia.
  - intros H. rewrite <- (double_quotes_plain s H) at 1. apply read_quoted_body_doubled.
Qed.

Lemma digit_val_not (c d : ascii) (v : Z) :
  digit_val d = None -> digit_val c = Some v -> Ascii.eqb c d = false.
Proof.
  intros Hd Hc. destruct (Ascii.eqb c d) eqn:E; [|reflexivity].
  apply Ascii.eqb_eq in E. congruence.
Qed.

Lemma dot_split (s t : string) (acc v : Z) :
  digits_value acc s = Some v ->
  before_dot (s +:+ String "." t) = s /\ after_dot (s +:+ String "." t) = t.
Proof.
  revert acc. induction s as [|c s IH]; intros acc; [now intros _|].
  rewrite sapp_cons. cbn [digits_value before_dot after_dot].
  destruct (digit_val c) as [d|] eqn:Hc; [|discriminate].
  rewrite (digit_val_not c "." d eq_refl Hc). intros H.
  destruct (IH _ H) as [-> ->]. now split.
Qed.

Lemma digits_value_acc (s : string) :
  forall acc : Z,
  digits_value acc s
  = (fun v => acc * 10 ^ Z.of_nat (len s) + v) <$> digits_value 0 s.
Proof.
  induction s as [|c s IH]; intros acc.
  - simpl. f_equal. lia.
  - cbn [digits_value]. destruct (digit_val c) as [d|]; [|reflexivity].
    rewrite (IH (10 * acc + d)), (IH (10 * 0 + d)).
    destruct (digits_value 0 s) as [v|]; [|reflexivity]. simpl. f_equal.
    change (len (String c s)) with (S (len s)).
    rewrite Nat2Z.inj_succ, Z.pow_succ_r by lia. lia.
Qed.

End ReadBackFacts.

Section FloatFacts.
Import GoString.

Lemma appendInt_field (width : nat) (x : Z) :
  0 <= x < 10 ^ Z.of_nat width -> (1 <= width)%nat ->
  field width x (Fmt.appendInt x width).
Proof.
  intros Hx Hw. unfold Fmt.appendInt, field.
  replace (x <? 0) with false by (symmetry; apply Z.ltb_ge; lia).
  rewrite sapp_nil_l, Z.abs_eq by lia. now apply pad_left_digits.
Qed.

Lemma scaled_round_nearest (m e : Z) :
  0 < m ->
  0 <= Fmt.scaled_round m e /\ nearest_millionth (Fmt.scaled_round m e) m e.
Proof.
  intros Hm. unfold Fmt.scaled_round, nearest_millionth, Fmt.pow10_6.
  destruct (0 <=? e) eqn:E.
  - apply Z.leb_le in E. rewrite (Z.max_l 0 (- e)), (Z.max_r 0 e) by lia.
    assert (0 < 2 ^ e) by (apply Z.pow_pos_nonneg; lia).
    change (2 ^ 0) with 1. split; [nia|]. rewrite Z.mul_1_r, Z.sub_diag. simpl. lia.
  - apply Z.leb_gt in E. rewrite (Z.max_r 0 (- e)), (Z.max_l 0 e) by lia.
    cbv zeta. change (2 ^ 0) with 1. rewrite Z.mul_1_r.
    set (den := 2 ^ (- e)). set (num := m * 1000000).
    assert (0 < den) as Hden by (apply Z.pow_pos_nonneg; lia).
    pose proof (Z.div_mod num den ltac:(lia)) as Hdm.
    pose proof (Z.mod_pos_bound num den Hden) as Hr.
    assert (0 <= num / den) as Hq by (apply Z.div_pos; lia).
    destruct ((den <? 2 * (num mod den)) || ((2 * (num mod den) =? den) && Z.odd (num / den)))
      eqn:Hup.
    + split; [lia|].
      assert (den <= 2 * (num mod den)) as Hge.
      { apply orb_true_iff in Hup as [Hup|Hup].
        - apply Z.ltb_lt in Hup. lia.
        - apply andb_true_iff in Hup as [Hup _]. apply Z.eqb_eq in Hup. lia. }
      rewrite Z.abs_eq; nia.
    + split; [lia|].
      apply orb_false_iff in Hup as [Hup _]. apply Z.ltb_ge in Hup.
      rewrite Z.abs_neq; nia.
Qed.

Lemma digits_first_digit (u : Z) :
  0 <= u -> exists c r d, Fmt.digits u = String c r /\ digit_val c = Some d.
Proof.
  intros Hu. pose proof (digits_value_digits u Hu) as Hv.
  destruct (Fmt.digits u) as [|c r] eqn:Hd; [now apply digits_nonempty in Hd|].
  cbn [digits_value] in Hv. destruct (digit_val c) as [d|] eqn:Hc; [|discriminate].
  now exists c, r, d.
Qed.

(** The text of a fixed-notation number reads as that number of
    millionths. *)
Lemma fixed6_value (neg : bool) (k : Z) :
  0 <= k ->
  decimal_value (Fmt.fixed6 neg k) = Some (if neg then - k else k, 6).
Proof.
  intros Hk. unfold Fmt.fixed6, Fmt.pow10_6.
  set (ip := Fmt.digits (k / 1000000)).
  set (fp := Fmt.pad_left 6 (Fmt.digits (k mod 1000000))).
  assert (0 <= k / 1000000) as Hq by (apply Z.div_pos; lia).
  pose proof (Z.mod_pos_bound k 1000000 ltac:(lia)) as Hr.
  pose proof (digits_value_digits _ Hq) as Hip. fold ip in Hip.
  destruct (pad_left_digits 6 (k mod 1000000) ltac:(simpl; lia) ltac:(lia)) as [Hlen Hfp].
  fold fp in Hlen, Hfp.
  destruct (digits_first_digit _ Hq) as (c & r & d & Hc & Hd). fold ip in Hc.
  clearbody ip fp.
  change ("." +:+ fp) with (String "." fp).
  destruct (dot_split ip fp 0 _ Hip) as [Hb Ha].
  assert (digits_value 0 (ip +:+ fp) = Some k) as Hval.
  { rewrite digits_value_app, Hip, digits_value_acc, Hfp, Hlen. simpl. f_equal.
    change (Z.pow_pos 10 6) with 1000000.
    pose proof (Z.div_mod k 1000000 ltac:(lia)). lia. }
  destruct neg.
  - change ("-" +:+ ip +:+ String "." fp) with (String "-" ("" +:+ ip +:+ String "." fp)).
    rewrite sapp_nil_l. unfold decimal_value. rewrite Ascii.eqb_refl.
    rewrite Hb, Ha, Hval, Hlen, Hc. reflexivity.
  - rewrite sapp_nil_l. unfold decimal_value.
    assert (match ip +:+ String "." fp with
            | String c0 s' =>
                if Ascii.eqb c0 "-" then (true, s') else (false, ip +:+ String "." fp)
            | "" => (false, "")
            end = (false, ip +:+ String "." fp)) as ->.
    { rewrite Hc, sapp_cons. now rewrite (digit_val_not c "-" d eq_refl Hd). }
    rewrite Hb, Ha, Hval, Hlen, Hc. reflexivity.
Qed.

End FloatFacts.

Section QuietFacts.
Variable fmt_other : ascii -> GoValue -> string.

Lemma render_cell_quiet (err : option error) (tys : list string) (i : nat) (col : GoValue) :
  Forall (fun ty => classify (normalize ty) <> Some Boolean) tys ->
  (i < length tys)%nat ->
  quiet (render_cell fmt_other err tys i col).
Proof.
  intros Hb Hi. destruct (lookup_lt_is_Some_2 tys i Hi) as [ty Hty].
  assert (classify (normalize ty) <> Some Boolean) as Hne.
  { rewrite Forall_forall in Hb. apply Hb. now apply (list_elem_of_lookup_2 tys i). }
  unfold render_cell. rewrite Hty.
  assert (quiet (render_value fmt_other err (normalize ty) col)) as Hq.
  { destruct (render_value fmt_other err (normalize ty) col) as [lit|e|r] eqn:Hr;
      [exact I|exact I|]. now apply render_value_no_panic in Hr. }
  now destruct col.
Qed.

Lemma row_loop_quiet (err : option error) (tys : list string) (n : nat) :
  Forall (fun ty => classify (normalize ty) <> Some Boolean) tys ->
  forall (cols : list GoValue) (i : nat) (ssql : string),
  (i + length cols <= length tys)%nat ->
  quiet (row_loop fmt_other err tys n i cols ssql).
Proof.
  intros Hb. induction cols as [|col cols IH]; intros i ssql Hlen; [exact I|].
  cbn [row_loop]. simpl in Hlen.
  pose proof (render_cell_quiet err tys i col Hb ltac:(lia)) as Hq.
  destruct (render_cell fmt_other err tys i col) as [lit|e|r]; [|exact I|exact Hq].
  cbn [mbind ctl_bind]. apply IH. lia.
Qed.

Lemma rows_loop_quiet (err : option error) (table : string) (ig : bool) (tys : list string) :
  Forall (fun ty => classify (normalize ty) <> Some Boolean) tys ->
  forall (values : list (list GoValue)) (buf : string),
  Forall (fun row => (length row <= length tys)%nat) values ->
  quiet (snd (rows_loop fmt_other err table ig tys values buf)).
Proof.
  intros Hb. induction values as [|row values IH]; intros buf Hv; [exact I|].
  inversion Hv as [|? ? Hrow Hrest]; subst.
  cbn [rows_loop]. unfold mbind at 1, M_bind, lift.
  pose proof (row_loop_quiet err tys (length row) Hb row 0%nat
                (insert_head table ig) ltac:(simpl; lia)) as Hq.
  destruct (row_loop _ _ _ _ _ _ _) as [ssql|e|r]; [|exact I|exact Hq].
  unfold mbind at 1, M_bind, WriteString. now apply IH.
Qed.

Lemma scan_loop_Next (pending : list (result (list GoValue))) :
  forall (acc values : list (list GoValue)) (err err' : option error),
  scan_loop pending acc err = Next (values, err') ->
  exists rows, pending = Ok <$> rows /\ values = acc ++ rows.
Proof.
  induction pending as [|[row|e] pending IH]; intros acc values err err'; cbn [scan_loop].
  - intros [= <- _]. exists []. now rewrite app_nil_r.
  - intros H. destruct (IH _ _ _ _ H) as (rows & -> & ->).
    exists (row :: rows). now rewrite <- app_assoc.
  - discriminate.
Qed.

Lemma scan_loop_quiet (pending : list (result (list GoValue)))
    (acc : list (list GoValue)) (err : option error) :
  quiet (scan_loop pending acc err).
Proof.
  revert acc err. induction pending as [|[row|e] pending IH]; intros acc err;
    cbn [scan_loop]; [exact I|apply IH|exact I].
Qed.

(** [writeTableData] has no fall-through end: it returns or panics. *)
Lemma writeTableData_returns (db : DB) (table : string) (ig : bool) (buf : string) :
  quiet (snd (writeTableData fmt_other db table ig buf)) ->
  exists e, snd (writeTableData fmt_other db table ig buf) = Return e.
Proof.
  unfold writeTableData. unfold mbind at 1 2 3, M_bind, WriteString.
  destruct (Query db _) as [lineRows|e]; [|now exists (Some e)].
  destruct (Columns lineRows) as [columns|e]; [|now exists (Some e)].
  destruct (ColumnTypes lineRows) as [tys|e]; [|now exists (Some e)].
  unfold mbind at 1, M_bind, lift.
  destruct (scan_loop (scans lineRows) [] None) as [[values err]|e|r];
    [|now exists e|intros []].
  unfold mbind, M_bind, WriteString, return_.
  destruct (rows_loop _ _ _ _ _ _ _) as [buf' [[]|e|r]]; cbn [snd];
    [now exists None|now exists e|intros []].
Qed.

Lemma writeTableData_quiet (db : DB) (table : string) (ig : bool)
    (lineRows : Rows (list GoValue)) (tys : list string) (buf : string) :
  Query db (select_query table) = Ok lineRows ->
  ColumnTypes lineRows = Ok tys ->
  Forall (fun ty => classify (normalize ty) <> Some Boolean) tys ->
  Forall (fun s => forall row, s = Ok row -> (length row <= length tys)%nat)
         (scans lineRows) ->
  quiet (snd (writeTableData fmt_other db table ig buf)).
Proof.
  intros Hq Ht Hb Hs. unfold writeTableData. unfold mbind at 1 2 3, M_bind, WriteString.
  rewrite Sprintf_select, Hq, Ht.
  destruct (Columns lineRows) as [columns|e]; [|exact I].
  unfold mbind at 1, M_bind, lift.
  destruct (scan_loop (scans lineRows) [] None) as [[values err]|e|r] eqn:Hscan;
    [|exact I|].
  - apply scan_loop_Next in Hscan as (rows & Hrows & ->). simpl app.
    assert (Forall (fun row => (length row <= length tys)%nat) rows) as Hv.
    { rewrite Hrows in Hs. rewrite Forall_fmap in Hs.
      eapply Forall_impl; [exact Hs|]. intros row H. now apply H. }
    pose proof (rows_loop_quiet err table ig tys Hb rows
                  (((buf +:+ banner)
                      +:+ Sprintf fmt_other ("-- Records of %s" +:+ nl) (VString table))
                     +:+ banner) Hv) as Hquiet.
    unfold mbind, M_bind, WriteString, return_.
    destruct (rows_loop _ _ _ _ _ _ _) as [buf' [[]|e|r]]; [exact I|exact I|exact Hquiet].
  - pose proof (scan_loop_quiet (scans lineRows) [] None) as H. now rewrite Hscan in H.
Qed.

Lemma resolve_tables_same (o : dumpOption) (db1 db2 : DB) :
  (isAllTable o = true -> Query_string db1 "SHOW TABLES" = Query_string db2 "SHOW TABLES") ->
  resolve_tables o db1 = resolve_tables o db2.
Proof.
  intros H. unfold resolve_tables, getAllTables.
  destruct (isAllTable o); [|reflexivity]. now rewrite (H eq_refl).
Qed.

End QuietFacts.

Section OptionFields.

Lemma apply_options_fields (names : list OptionName) :
  let o := apply_options (option_of <$> names) in
  isDropTable o = bool_decide (ODropTable ∈ names) /\
  isData o = bool_decide (OData ∈ names) /\
  isIgnoreInsert o = bool_decide (OIgnoreInsertTable ∈ names) /\
  isAllTable o = bool_decide (OAllTable ∈ names) /\
  tables o = default [] (last_given given_tables names) /\
  ignoreTables o = default [] (last_given given_ignoreTables names) /\
  writer o = last_given given_writer names.
Proof.
  cbv zeta. induction names as [|name names IH] using rev_ind.
  - repeat split.
  - destruct IH as (H1 & H2 & H3 & H4 & H5 & H6 & H7).
    rewrite fmap_app. cbn [fmap list_fmap]. rewrite apply_options_snoc.
    rewrite !bool_decide_elem_snoc, !last_given_snoc.
    destruct name; cbn; rewrite ?orb_false_r, ?orb_true_r; repeat split; assumption.
Qed.

End OptionFields.

(** ** Further properties of the package *)

(** X1 (options, lines 39-86 and 100-109): applying a list of options to
    the zero value sets each flag exactly when its option occurs in the
    list, and keeps for the inclusion list, the exclusion list and the
    writer the argument of the last option of that kind (nothing when there
    is none); the order of the options matters in no other way.  After the
    default of line 106, all tables are dumped when the all-tables option
    occurs or the inclusion list is left empty. *)
Theorem options_accumulate (names : list OptionName) :
  let o := apply_options (option_of <$> names) in
  isDropTable o = bool_decide (ODropTable ∈ names) /\
  isData o = bool_decide (OData ∈ names) /\
  isIgnoreInsert o = bool_decide (OIgnoreInsertTable ∈ names) /\
  isAllTable o = bool_decide (OAllTable ∈ names) /\
  tables o = default [] (last_given given_tables names) /\
  ignoreTables o = default [] (last_given given_ignoreTables names) /\
  writer o = last_given given_writer names /\
  isAllTable (effective_options (option_of <$> names))
  = bool_decide (OAllTable ∈ names)
    || bool_decide (default [] (last_given given_tables names) = []).
Proof.
  cbv zeta. destruct (apply_options_fields names) as (H1 & H2 & H3 & H4 & H5 & H6 & H7).
  repeat (split; [assumption|]).
  unfold effective_options. cbv zeta. rewrite H5.
  destruct (default [] (last_given given_tables names)) as [|t ts] eqn:E.
  - cbn. now rewrite orb_true_r.
  - cbn [length Nat.eqb]. rewrite H4.
    rewrite (bool_decide_eq_false_2 (t :: ts = [])) by (intros Hnil; discriminate Hnil).
    now rewrite orb_false_r.
Qed.

(** X2 ([getAllTables], lines 218-235): when the listing succeeds and
    every row scans, the result is the names in the order the database
    gave them, none dropped and none added. *)
Theorem getAllTables_keeps_order (db : DB) (rows : Rows string) (ts : list string) :
  Query_string db "SHOW TABLES" = Ok rows ->
  scans rows = Ok <$> ts ->
  getAllTables db = Ok ts.
Proof.
  intros Hq Hs. unfold getAllTables. rewrite Hq, Hs. apply tables_loop_all.
Qed.

Lemma getAllTables_keeps_order_witness :
  getAllTables shop_db = Ok ["t"; "u"; "g"].
Proof.
  apply (getAllTables_keeps_order shop_db
           (mkRows (Ok ["Tables_in_shop"]) (Ok ["VARCHAR"]) [Ok "t"; Ok "u"; Ok "g"])
           ["t"; "u"; "g"]); reflexivity.
Defined.

(** X3 ([Dump], lines 119-153, and [getAllTables]): when opening the
    handle, reading the database name, the USE statement or the listing
    of the tables (the query or the scan of any of its rows) fails, the
    dump returns that error and the output holds the header comment and
    nothing else. *)
Theorem failure_before_tables_leaves_header (fmt_other : ascii -> GoValue -> string)
    (env : Env) (dsn : string) (opts : list DumpOption) (e : error) :
  fails_before_tables env dsn (effective_options opts) e ->
  run_Dump fmt_other env dsn opts = (dump_header env, Return (Some e)).
Proof.
  intros H. unfold run_Dump.
  destruct (Dump_header fmt_other env dsn opts "") as (k & -> & ->).
  rewrite sapp_nil_l.
  destruct H as [->|(db & -> & [->|(dbName & -> & [->|(-> & Hall & Hshow)])])];
    try reflexivity.
  unfold resolve_tables. now rewrite Hall, (getAllTables_fails db e Hshow).
Qed.

Lemma failure_before_tables_leaves_header_witness :
  run_Dump fmt_unused flaky_env "root@/shop" [WithData]
  = (dump_header flaky_env, Return (Some (GoError "invalid connection"))).
Proof.
  apply (failure_before_tables_leaves_header fmt_unused flaky_env "root@/shop" [WithData]).
  right. exists flaky_db. split; [reflexivity|]. right. exists "shop".
  split; [reflexivity|]. right. split; [reflexivity|]. split; [reflexivity|].
  right. exists (mkRows (Ok ["Tables_in_shop"]) (Ok ["VARCHAR"])
                   [Ok "t"; Failed (GoError "invalid connection")]), ["t"], [].
  split; reflexivity.
Defined.

(** X4 ([writeTableStruct], lines 237-254, and [Dump], lines 175-186):
    when the structure query of a table fails, the dump returns that
    error; the output ends with what came before that table, its drop
    statement when asked for, and the three comment lines that announce
    its structure. *)
Theorem structure_failure_aborts_dump (fmt_other : ascii -> GoValue -> string)
    (env : Env) (dsn : string) (opts : list DumpOption) (db : DB)
    (ts : list string) (t : string) (rest : list string)
    (infos : list (string * list (list string))) (e : error) :
  connected fmt_other env dsn db ->
  resolve_tables (effective_options opts) db = Ok (ts ++ t :: rest) ->
  Forall2 (table_dumps fmt_other (effective_options opts) db) ts infos ->
  QueryRow_string2 db (show_create_query t) = Failed e ->
  run_Dump fmt_other env dsn opts
  = (dump_header env +:+ tables_text (effective_options opts) ts infos
       +:+ drop_text (effective_options opts) t
       +:+ banner +:+ "-- Table structure for " +:+ t +:+ nl +:+ banner,
     Return (Some e)).
Proof.
  intros Hconn Hts Hdumps Hfail.
  apply (Dump_stops_at fmt_other env dsn opts db ts rest t infos _ _ Hconn Hts Hdumps).
  intros buf. now rewrite (dump_table_struct_fails fmt_other _ db t e buf Hfail).
Qed.

Lemma structure_failure_aborts_dump_witness :
  run_Dump fmt_unused shop_env "root@/shop" [WithDropTable; WithTables ["u"; "missing"; "t"]]
  = (dump_header shop_env
       +:+ ("DROP TABLE IF EXISTS `u`;" +:+ nl)
       +:+ structure_text "u" "CREATE TABLE IF NOT EXISTS `u` (`id` int, `name` varchar(10))"
       +:+ ("DROP TABLE IF EXISTS `missing`;" +:+ nl)
       +:+ banner +:+ "-- Table structure for missing" +:+ nl +:+ banner,
     Return (Some (GoError "Error 1146: Table doesn't exist"))).
Proof.
  pose proof (structure_failure_aborts_dump fmt_unused shop_env "root@/shop"
                [WithDropTable; WithTables ["u"; "missing"; "t"]] shop_db
                ["u"] "missing" ["t"]
                [("CREATE TABLE IF NOT EXISTS `u` (`id` int, `name` varchar(10))", [])]
                (GoError "Error 1146: Table doesn't exist")) as H.
  rewrite H.
  - vm_compute. reflexivity.
  - split; [reflexivity|]. exists "shop". split; reflexivity.
  - reflexivity.
  - constructor; [|constructor]. split; [reflexivity|]. intros Hd. discriminate Hd.
  - reflexivity.
Defined.

(** X5 ([writeTableData], lines 261-297, and [Dump], lines 188-195): when
    reading the rows of a table fails (the query, the column names, the
    column types, or the scan of any row), the dump returns that error; the
    table's structure and the comment lines that announce its records are
    written, but no INSERT statement, not even for the rows scanned before
    the failure. *)
Theorem row_reading_failure_aborts_dump (fmt_other : ascii -> GoValue -> string)
    (env : Env) (dsn : string) (opts : list DumpOption) (db : DB)
    (ts : list string) (t : string) (rest : list string)
    (infos : list (string * list (list string))) (sql : string) (e : error) :
  connected fmt_other env dsn db ->
  resolve_tables (effective_options opts) db = Ok (ts ++ t :: rest) ->
  Forall2 (table_dumps fmt_other (effective_options opts) db) ts infos ->
  isData (effective_options opts) = true ->
  getCreateTableSQL fmt_other db t = Ok sql ->
  select_fails db t e ->
  run_Dump fmt_other env dsn opts
  = (dump_header env +:+ tables_text (effective_options opts) ts infos
       +:+ drop_text (effective_options opts) t +:+ structure_text t sql
       +:+ records_header t,
     Return (Some e)).
Proof.
  intros Hconn Hts Hdumps Hdata Hsql Hsel.
  apply (Dump_stops_at fmt_other env dsn opts db ts rest t infos _ _ Hconn Hts Hdumps).
  intros buf.
  now rewrite (dump_table_select_fails fmt_other _ db t sql e buf Hdata Hsql Hsel).
Qed.

Lemma row_reading_failure_aborts_dump_witness :
  run_Dump fmt_unused flaky_env "root@/shop" [WithData; WithTables ["u"; "g"]]
  = (dump_header flaky_env
       +:+ structure_text "u" "CREATE TABLE IF NOT EXISTS `u` (`id` int, `name` varchar(10))"
       +:+ records_header "u",
     Return (Some (GoError "invalid connection"))).
Proof.
  pose proof (row_reading_failure_aborts_dump fmt_unused flaky_env "root@/shop"
                [WithData; WithTables ["u"; "g"]] flaky_db [] "u" ["g"] []
                "CREATE TABLE IF NOT EXISTS `u` (`id` int, `name` varchar(10))"
                (GoError "invalid connection")) as H.
  rewrite H.
  - vm_compute. reflexivity.
  - split; [reflexivity|]. exists "shop". split; reflexivity.
  - reflexivity.
  - constructor.
  - reflexivity.
  - reflexivity.
  - unfold select_fails. cbn.
    exists [[VInt64 1; VBytes "x"]], []. reflexivity.
Defined.

(** X6 ([Dump], [writeTableStruct], [writeTableData]): when every table
    of the working set gives its structure and, with data, renders all its
    rows, the dump returns nil and its output is the header comment, then
    for each table in order its drop statement (when asked for), its
    structure and (with data only) its records, and last the footer
    comment; without data no row is written. *)
Theorem dump_text_is_tables_in_order (fmt_other : ascii -> GoValue -> string)
    (env : Env) (dsn : string) (opts : list DumpOption) (db : DB)
    (ts : list string) (infos : list (string * list (list string))) :
  connected fmt_other env dsn db ->
  resolve_tables (effective_options opts) db = Ok ts ->
  Forall2 (table_dumps fmt_other (effective_options opts) db) ts infos ->
  run_Dump fmt_other env dsn opts
  = (dump_header env +:+ tables_text (effective_options opts) ts infos
       +:+ dump_footer env,
     Return None).
Proof.
  intros Hconn Hts Hdumps. unfold run_Dump.
  rewrite (Dump_tables fmt_other env dsn opts db ts _ Hconn Hts).
  rewrite (tables_dump_dumps fmt_other _ db ts infos Hdumps).
  now rewrite sapp_nil_l, !sapp_assoc.
Qed.

Lemma dump_text_is_tables_in_order_witness :
  run_Dump fmt_unused shop_env "root@/shop" [WithDropTable; WithIgnoreTables ["t"]]
  = (dump_header shop_env
       +:+ ("DROP TABLE IF EXISTS `u`;" +:+ nl)
       +:+ structure_text "u" "CREATE TABLE IF NOT EXISTS `u` (`id` int, `name` varchar(10))"
       +:+ ("DROP TABLE IF EXISTS `g`;" +:+ nl)
       +:+ structure_text "g" "CREATE TABLE IF NOT EXISTS `g` (`id` int, `shape` geometry)"
       +:+ dump_footer shop_env,
     Return None).
Proof.
  pose proof (dump_text_is_tables_in_order fmt_unused shop_env "root@/shop"
                [WithDropTable; WithIgnoreTables ["t"]] shop_db ["u"; "g"]
                [("CREATE TABLE IF NOT EXISTS `u` (`id` int, `name` varchar(10))", []);
                 ("CREATE TABLE IF NOT EXISTS `g` (`id` int, `shape` geometry)", [])]) as H.
  rewrite H.
  - vm_compute. reflexivity.
  - split; [reflexivity|]. exists "shop". split; reflexivity.
  - vm_compute. reflexivity.
  - repeat constructor; intros Hd; discriminate Hd.
Defined.

(** X7 ([writeTableData], lines 299-394): a table without rows is dumped
    whatever its column types are, also types outside the category table:
    the records comment, two line feeds, and nil. *)
Theorem empty_table_dumps_for_any_types (fmt_other : ascii -> GoValue -> string)
    (db : DB) (table : string) (ig : bool) (tys : list string) (buf : string) :
  table_rows fmt_other db table tys [] ->
  writeTableData fmt_other db table ig buf
  = (buf +:+ records_header table +:+ nl +:+ nl, Return None).
Proof.
  intros Hrows. rewrite (writeTableData_rows fmt_other db table ig tys [] buf Hrows).
  cbn [rows_loop]. unfold mret, M_ret. now rewrite !sapp_assoc.
Qed.

Lemma empty_table_dumps_for_any_types_witness :
  classify (normalize "GEOMETRY") = None /\
  writeTableData fmt_unused flaky_db "e" false ""
  = (records_header "e" +:+ nl +:+ nl, Return None).
Proof.
  split; [reflexivity|].
  apply (empty_table_dumps_for_any_types fmt_unused flaky_db "e" false ["GEOMETRY"] "").
  exists (mkRows (Ok ["shape"]) (Ok ["GEOMETRY"]) []), ["shape"].
  repeat split; reflexivity.
Defined.

(** X8 ([Dump] and everything it calls): whatever the options, the
    database and the outcome (nil, an error or a panic), the dump only adds
    to what the buffer holds, and what it adds starts with the header
    comment. *)
Theorem dump_output_starts_with_header (fmt_other : ascii -> GoValue -> string)
    (env : Env) (dsn : string) (opts : list DumpOption) (buf : string) :
  exists rest, fst (Dump fmt_other env dsn opts buf) = buf +:+ dump_header env +:+ rest.
Proof.
  destruct (Dump_header fmt_other env dsn opts buf) as (k & -> & ->).
  assert (forall m : M unit, appends m ->
          exists rest, fst (m (buf +:+ dump_header env)) = buf +:+ dump_header env +:+ rest)
    as Hk.
  { intros m Hm. destruct (Hm (buf +:+ dump_header env)) as [w Hw].
    exists w. now rewrite Hw, sapp_assoc. }
  apply Hk.
  destruct (sql_Open env dsn) as [db|e]; [|apply appends_return].
  destruct (GetDBNameFromDSN env dsn) as [dbName|e]; [|apply appends_return].
  destruct (Exec db (use_query dbName)) as [e|]; [apply appends_return|].
  destruct (resolve_tables (effective_options opts) db) as [ts|e]; [|apply appends_return].
  apply appends_bind; [apply appends_tables_dump|intros _].
  repeat (apply appends_bind; [apply appends_WriteString|intros _]).
  apply appends_return.
Qed.

(** X9 ([Dump], [getAllTables], [writeTableStruct], [writeTableData]):
    the dump depends on the database only through the answers to USE, to
    SHOW TABLES when all tables are asked for, and to SHOW CREATE TABLE
    and (with data only) SELECT for the tables of the working set: two
    handles that agree on these give the same output and the same result.
    Tables outside the working set are never read, and without the data
    option no row is. *)
Theorem dump_reads_only_dumped_tables (fmt_other : ascii -> GoValue -> string)
    (env : Env) (dsn : string) (opts : list DumpOption) (db1 db2 : DB) :
  sql_Open env dsn = Ok db1 ->
  (forall dbName, GetDBNameFromDSN env dsn = Ok dbName ->
                  Exec db1 (use_query dbName) = Exec db2 (use_query dbName)) ->
  (isAllTable (effective_options opts) = true ->
   Query_string db1 "SHOW TABLES" = Query_string db2 "SHOW TABLES") ->
  (forall ts, resolve_tables (effective_options opts) db1 = Ok ts ->
              Forall (same_answers (effective_options opts) db1 db2) ts) ->
  run_Dump fmt_other (with_db env db2) dsn opts = run_Dump fmt_other env dsn opts.
Proof.
  intros Hopen Huse Hshow Hsame. unfold run_Dump.
  destruct (Dump_header fmt_other env dsn opts "") as (k1 & -> & ->).
  destruct (Dump_header fmt_other (with_db env db2) dsn opts "") as (k2 & -> & ->).
  change (dump_header (with_db env db2)) with (dump_header env).
  change (sql_Open (with_db env db2) dsn) with (@Ok DB db2).
  change (GetDBNameFromDSN (with_db env db2) dsn) with (GetDBNameFromDSN env dsn).
  change (since_String (with_db env db2)) with (since_String env).
  rewrite Hopen.
  destruct (GetDBNameFromDSN env dsn) as [dbName|e]; [|reflexivity].
  rewrite <- (Huse dbName eq_refl).
  destruct (Exec db1 (use_query dbName)) as [e|]; [reflexivity|].
  rewrite <- (resolve_tables_same (effective_options opts) db1 db2 Hshow).
  destruct (resolve_tables (effective_options opts) db1) as [ts|e]; [|reflexivity].
  unfold mbind at 1 6, M_bind.
  now rewrite (tables_dump_same_answers fmt_other _ db1 db2 ts (Hsame ts eq_refl)).
Qed.

Lemma dump_reads_only_dumped_tables_witness :
  Query_string shop_db "SHOW TABLES"
  = Ok (mkRows (Ok ["Tables_in_shop"]) (Ok ["VARCHAR"]) [Ok "t"; Ok "u"; Ok "g"]) /\
  Query_string flaky_db "SHOW TABLES"
  = Ok (mkRows (Ok ["Tables_in_shop"]) (Ok ["VARCHAR"])
          [Ok "t"; Failed (GoError "invalid connection")]) /\
  run_Dump fmt_unused (with_db shop_env flaky_db) "root@/shop" [WithTables ["u"]]
  = run_Dump fmt_unused shop_env "root@/shop" [WithTables ["u"]].
Proof.
  split; [reflexivity|]. split; [reflexivity|].
  apply (dump_reads_only_dumped_tables fmt_unused shop_env "root@/shop"
           [WithTables ["u"]] shop_db flaky_db).
  - reflexivity.
  - intros dbName _. reflexivity.
  - intros H. discriminate H.
  - intros ts H. injection H as <-. repeat constructor. intros Hd. discriminate Hd.
Defined.

(** X10 (type normalization, lines 310-314): every name of the category
    table is its own normal form, and the qualifier the driver puts in
    front of an unsigned column, [UNSIGNED ] with its space, is ignored: a
    column reported as [UNSIGNED <name>] falls into the category of
    [<name>]. *)
Theorem unsigned_prefix_same_category (name : string) (c : ValueCategory) :
  classify name = Some c ->
  normalize name = name /\
  normalize ("UNSIGNED " +:+ name) = name /\
  classify (normalize ("UNSIGNED " +:+ name)) = Some c.
Proof.
  intros H. pose proof (classify_normalize name c H) as Hn.
  rewrite normalize_unsigned_prefix, Hn. now repeat split.
Qed.

Lemma unsigned_prefix_same_category_witness :
  classify "BIGINT" = Some Integer /\
  normalize "BIGINT" = "BIGINT" /\
  normalize "UNSIGNED BIGINT" = "BIGINT" /\
  classify (normalize "UNSIGNED BIGINT") = Some Integer.
Proof.
  split; [reflexivity|].
  apply (unsigned_prefix_same_category "BIGINT" Integer). reflexivity.
Defined.

(** X11 (type normalization, lines 312-313): the name the [switch] looks
    at never holds a space, whatever the driver reports. *)
Theorem normalized_name_has_no_space (ty : string) :
  has_byte " " (normalize ty) = false.
Proof.
  rewrite normalize_strip. apply has_byte_strip_spaces.
Qed.

(** X12 (Text category, line 366): the literal written for a string or
    byte-sequence value reads back, as a quoted SQL string in which a
    doubled quote stands for one quote, to exactly the bytes of the value;
    so different values get different literals and no value can end its
    literal early. *)
Theorem text_literal_reads_back (fmt_other : ascii -> GoValue -> string)
    (err : option error) (tys : list string) (i : nat) (ty s : string) (v : GoValue) :
  tys !! i = Some ty ->
  classify (normalize ty) = Some Text ->
  v = VString s \/ v = VBytes s ->
  exists lit,
    render_cell fmt_other err tys i v = Next lit /\ read_text_literal lit = Some s.
Proof.
  intros Hty Hcat Hv. exists ("'" +:+ double_quotes s +:+ "'"). split.
  - rewrite (render_cell_non_nil fmt_other err tys i ty)
      by (exact Hty || (destruct Hv; subst; discriminate)).
    rewrite (render_value_text fmt_other err _ _ Hcat).
    assert (Sprintf fmt_other "%s" v = s) as ->
      by (destruct Hv as [-> | ->]; [apply Sprintf_s|apply Sprintf_s_bytes]).
    rewrite Sprintf_quoted, Replace_all by (discriminate || lia).
    now rewrite replace_every_quote.
  - change ("'" +:+ double_quotes s +:+ "'")
      with (String "'" ("" +:+ double_quotes s +:+ "'")).
    rewrite sapp_nil_l. cbn [read_text_literal]. rewrite Ascii.eqb_refl.
    apply read_quoted_body_doubled.
Qed.

Lemma text_literal_reads_back_witness :
  exists lit,
    render_cell fmt_unused None ["INT"; "TEXT"] 1 (VBytes "it's '' x'") = Next lit /\
    read_text_literal lit = Some "it's '' x'".
Proof.
  apply (text_literal_reads_back fmt_unused None ["INT"; "TEXT"] 1 "TEXT" "it's '' x'"
           (VBytes "it's '' x'")); [reflexivity|reflexivity|now right].
Defined.

(** X13 (EnumOrSet and Json categories, lines 370 and 378): a string or
    byte-sequence value is written between single quotes exactly as it is,
    with no quote doubled; the literal therefore reads back to the value
    exactly when the value holds no single quote. *)
Theorem enum_json_written_verbatim (fmt_other : ascii -> GoValue -> string)
    (err : option error) (tys : list string) (i : nat) (ty s : string) (v : GoValue) :
  tys !! i = Some ty ->
  classify (normalize ty) = Some EnumOrSet \/ classify (normalize ty) = Some Json ->
  v = VString s \/ v = VBytes s ->
  render_cell fmt_other err tys i v = Next ("'" +:+ s +:+ "'") /\
  (read_text_literal ("'" +:+ s +:+ "'") = Some s <-> has_byte "'" s = false).
Proof.
  intros Hty Hcat Hv. split; [|apply read_verbatim].
  rewrite (render_cell_non_nil fmt_other err tys i ty)
    by (exact Hty || (destruct Hv; subst; discriminate)).
  rewrite (render_value_verbatim fmt_other err _ _ Hcat).
  destruct Hv as [-> | ->]; reflexivity.
Qed.

Lemma enum_json_written_verbatim_witness :
  render_cell fmt_unused None ["JSON"] 0 (VBytes "{'k': 1}") = Next "'{'k': 1}'" /\
  (read_text_literal "'{'k': 1}'" = Some "{'k': 1}" <-> has_byte "'" "{'k': 1}" = false).
Proof.
  apply (enum_json_written_verbatim fmt_unused None ["JSON"] 0 "JSON" "{'k': 1}"
           (VBytes "{'k': 1}")); [reflexivity|now right|now right].
Defined.

(** X14 (Binary category, line 368): the literal written for a string or
    byte-sequence value is [0x] followed by two upper-case hexadecimal
    digits for every byte: it is [2 + 2n] bytes long for a value of [n]
    bytes and reads back to exactly the bytes of the value. *)
Theorem binary_literal_reads_back (fmt_other : ascii -> GoValue -> string)
    (err : option error) (tys : list string) (i : nat) (ty s : string) (v : GoValue) :
  tys !! i = Some ty ->
  classify (normalize ty) = Some Binary ->
  v = VString s \/ v = VBytes s ->
  exists lit,
    render_cell fmt_other err tys i v = Next lit /\
    read_hex_literal lit = Some s /\
    GoString.len lit = (2 + 2 * GoString.len s)%nat.
Proof.
  intros Hty Hcat Hv. exists ("0x" +:+ Fmt.fmtSbx_upper s). split; [|split].
  - rewrite (render_cell_non_nil fmt_other err tys i ty)
      by (exact Hty || (destruct Hv; subst; discriminate)).
    rewrite (render_value_binary fmt_other err _ _ Hcat).
    destruct (Sprintf_X fmt_other s) as [Hb Hs].
    destruct Hv as [-> | ->]; [now rewrite Hs|now rewrite Hb].
  - change ("0x" +:+ Fmt.fmtSbx_upper s)
      with (String "0" (String "x" ("" +:+ Fmt.fmtSbx_upper s))).
    rewrite sapp_nil_l. cbn [read_hex_literal]. rewrite !Ascii.eqb_refl.
    apply unhex_fmtSbx.
  - rewrite len_app, len_fmtSbx. reflexivity.
Qed.

Lemma binary_literal_reads_back_witness :
  exists lit,
    render_cell fmt_unused None ["BLOB"] 0 (VBytes (String "000" (String "255" "'z"))) = Next lit /\
    read_hex_literal lit = Some (String "000" (String "255" "'z")) /\
    GoString.len lit = 10%nat.
Proof.
  apply (binary_literal_reads_back fmt_unused None ["BLOB"] 0 "BLOB"
           (String "000" (String "255" "'z")) (VBytes (String "000" (String "255" "'z"))));
    [reflexivity|reflexivity|now right].
Defined.

(** X15 (Integer category, line 319): the literal written for a native
    integer is a decimal numeral that reads back to the same number,
    whatever its sign and size. *)
Theorem native_integer_reads_back (fmt_other : ascii -> GoValue -> string)
    (err : option error) (tys : list string) (i : nat) (ty : string) (n : Z) (v : GoValue) :
  tys !! i = Some ty ->
  classify (normalize ty) = Some Integer ->
  v = VInt64 n \/ v = VUint64 n ->
  exists lit,
    render_cell fmt_other err tys i v = Next lit /\ numeral_value lit = Some n.
Proof.
  intros Hty Hcat Hv. exists (Fmt.fmtInteger n). split; [|apply numeral_value_fmtInteger].
  rewrite (render_cell_non_nil fmt_other err tys i ty)
    by (exact Hty || (destruct Hv; subst; discriminate)).
  rewrite (render_value_integer fmt_other err _ _ Hcat).
  destruct (Sprintf_d fmt_other n) as [H1 H2].
  destruct Hv as [-> | ->]; [now rewrite H1|now rewrite H2].
Qed.

Lemma native_integer_reads_back_witness :
  exists lit,
    render_cell fmt_unused None ["UNSIGNED BIGINT"] 0 (VUint64 18446744073709551615)
    = Next lit /\
    numeral_value lit = Some 18446744073709551615.
Proof.
  apply (native_integer_reads_back fmt_unused None ["UNSIGNED BIGINT"] 0 "UNSIGNED BIGINT"
           18446744073709551615 (VUint64 18446744073709551615));
    [reflexivity|reflexivity|now right].
Defined.

(** X16 (Float category, line 325): the literal written for a finite
    non-zero native float is a decimal numeral with exactly six digits
    after the point, with the sign of the float, and the number of
    millionths it spells is an integer nearest to the float's magnitude
    times a million: the literal is off by at most half a millionth. *)
Theorem native_float_nearest_millionth (fmt_other : ascii -> GoValue -> string)
    (err : option error) (tys : list string) (i : nat) (ty : string) (x : float)
    (neg : bool) (m : positive) (e : Z) (v : GoValue) :
  tys !! i = Some ty ->
  classify (normalize ty) = Some Float ->
  Prim2SF x = S754_finite neg m e ->
  v = VFloat32 x \/ v = VFloat64 x ->
  exists lit k,
    render_cell fmt_other err tys i v = Next lit /\
    decimal_value lit = Some (if neg then - k else k, 6) /\
    0 <= k /\ nearest_millionth k (Z.pos m) e.
Proof.
  intros Hty Hcat Hx Hv.
  destruct (scaled_round_nearest (Z.pos m) e ltac:(lia)) as [Hk Hnear].
  exists (Fmt.fixed6 neg (Fmt.scaled_round (Z.pos m) e)), (Fmt.scaled_round (Z.pos m) e).
  split; [|split; [now apply fixed6_value|now split]].
  rewrite (render_cell_non_nil fmt_other err tys i ty)
    by (exact Hty || (destruct Hv; subst; discriminate)).
  rewrite (render_value_float fmt_other err _ _ Hcat).
  destruct (Sprintf_f fmt_other x) as [H1 H2].
  assert (Fmt.fmtFloat_f x = Fmt.fixed6 neg (Fmt.scaled_round (Z.pos m) e)) as Hf
    by (unfold Fmt.fmtFloat_f; now rewrite Hx).
  destruct Hv as [-> | ->]; [now rewrite H1, Hf|now rewrite H2, Hf].
Qed.

Lemma native_float_nearest_millionth_witness :
  Prim2SF (-0x1.999999999999ap-4)%float = S754_finite true 7205759403792794 (-56) /\
  exists lit k,
    render_cell fmt_unused None ["DOUBLE"] 0 (VFloat64 (-0x1.999999999999ap-4)%float) = Next lit /\
    decimal_value lit = Some (if true then - k else k, 6) /\
    0 <= k /\ nearest_millionth k 7205759403792794 (-56).
Proof.
  split; [vm_compute; reflexivity|].
  apply (native_float_nearest_millionth fmt_unused None ["DOUBLE"] 0 "DOUBLE" (-0x1.999999999999ap-4)%float
           true 7205759403792794 (-56) (VFloat64 (-0x1.999999999999ap-4)%float));
    [reflexivity|reflexivity|vm_compute; reflexivity|now right].
Defined.

(** X17 (Date category, lines 330-336): for a time value whose year has
    no more than four digits, the literal is, between single quotes, the
    year in four digits, the month in two and the day in two, separated
    by hyphens; each field reads back to the number it was written from. *)
Theorem date_literal_reads_back (fmt_other : ascii -> GoValue -> string)
    (err : option error) (tys : list string) (i : nat) (ty : string) (t : Time) :
  tys !! i = Some ty ->
  classify (normalize ty) = Some Date ->
  in_layout t ->
  exists y m d,
    render_cell fmt_other err tys i (VTime t)
    = Next ("'" +:+ y +:+ "-" +:+ m +:+ "-" +:+ d +:+ "'") /\
    field 4 (Year t) y /\ field 2 (Month t) m /\ field 2 (Day t) d.
Proof.
  intros Hty Hcat (Hy & Hm & Hd & _).
  exists (Fmt.appendInt (Year t) 4), (Fmt.appendInt (Month t) 2), (Fmt.appendInt (Day t) 2).
  split; [|repeat split; apply appendInt_field; simpl; lia].
  rewrite (render_cell_non_nil fmt_other err tys i ty) by (exact Hty || discriminate).
  rewrite (render_value_date fmt_other err _ _ Hcat).
  unfold Fmt.Format_date. now rewrite !sapp_assoc.
Qed.

Lemma date_literal_reads_back_witness :
  exists y m d,
    render_cell fmt_unused None ["DATE"] 0 (VTime (mkTime 987 5 7 0 0 0))
    = Next ("'" +:+ y +:+ "-" +:+ m +:+ "-" +:+ d +:+ "'") /\
    field 4 987 y /\ field 2 5 m /\ field 2 7 d.
Proof.
  apply (date_literal_reads_back fmt_unused None ["DATE"] 0 "DATE" (mkTime 987 5 7 0 0 0));
    [reflexivity|reflexivity|unfold in_layout; simpl; lia].
Defined.

(** X18 (DateTime and Timestamp categories, lines 337-350): for a time
    value whose year has no more than four digits, the literal is, between
    single quotes, the date as for the Date category, a space, and the
    hour, minute and second in two digits each, separated by colons; each
    field reads back to the number it was written from.  Fractions of a
    second and the time zone are not written. *)
Theorem datetime_literal_reads_back (fmt_other : ascii -> GoValue -> string)
    (err : option error) (tys : list string) (i : nat) (ty : string) (t : Time) :
  tys !! i = Some ty ->
  classify (normalize ty) = Some DateTime \/ classify (normalize ty) = Some Timestamp ->
  in_layout t ->
  exists y m d h mi s,
    render_cell fmt_other err tys i (VTime t)
    = Next ("'" +:+ y +:+ "-" +:+ m +:+ "-" +:+ d +:+ " "
              +:+ h +:+ ":" +:+ mi +:+ ":" +:+ s +:+ "'") /\
    field 4 (Year t) y /\ field 2 (Month t) m /\ field 2 (Day t) d /\
    field 2 (Hour t) h /\ field 2 (Minute t) mi /\ field 2 (Second t) s.
Proof.
  intros Hty Hcat (Hy & Hm & Hd & Hh & Hmi & Hs).
  exists (Fmt.appendInt (Year t) 4), (Fmt.appendInt (Month t) 2), (Fmt.appendInt (Day t) 2),
    (Fmt.appendInt (Hour t) 2), (Fmt.appendInt (Minute t) 2), (Fmt.appendInt (Second t) 2).
  split; [|repeat split; apply appendInt_field; simpl; lia].
  rewrite (render_cell_non_nil fmt_other err tys i ty) by (exact Hty || discriminate).
  rewrite (render_value_datetime fmt_other err _ _ Hcat).
  unfold Fmt.Format_datetime, Fmt.Format_date. now rewrite !sapp_assoc.
Qed.

Lemma datetime_literal_reads_back_witness :
  exists y m d h mi s,
    render_cell fmt_unused None ["TIMESTAMP"] 0 (VTime (mkTime 2024 12 31 23 59 9))
    = Next ("'" +:+ y +:+ "-" +:+ m +:+ "-" +:+ d +:+ " "
              +:+ h +:+ ":" +:+ mi +:+ ":" +:+ s +:+ "'") /\
    field 4 2024 y /\ field 2 12 m /\ field 2 31 d /\
    field 2 23 h /\ field 2 59 mi /\ field 2 9 s.
Proof.
  apply (datetime_literal_reads_back fmt_unused None ["TIMESTAMP"] 0 "TIMESTAMP"
           (mkTime 2024 12 31 23 59 9));
    [reflexivity|now right|unfold in_layout; simpl; lia].
Defined.

(** X19 ([getCreateTableSQL], lines 207-216): a structure statement that
    does not hold the text CREATE TABLE (that of a temporary table, for
    one) is returned as the database gave it. *)
Theorem structure_without_create_table_unchanged (fmt_other : ascii -> GoValue -> string)
    (db : DB) (table name sql : string) :
  QueryRow_string2 db (show_create_query table) = Ok (name, sql) ->
  GoString.Index sql "CREATE TABLE" = None ->
  getCreateTableSQL fmt_other db table = Ok sql.
Proof.
  intros Hq Hi. unfold getCreateTableSQL. rewrite Sprintf_show_create, Hq.
  now rewrite Replace_absent by (discriminate || exact Hi).
Qed.

Lemma structure_without_create_table_unchanged_witness :
  getCreateTableSQL fmt_unused flaky_db "tmp" = Ok "CREATE TEMPORARY TABLE `tmp` (`n` int)".
Proof.
  apply (structure_without_create_table_unchanged fmt_unused flaky_db "tmp" "tmp");
    reflexivity.
Defined.

(** X20 ([writeTableData], lines 258-395): for a table none of whose
    columns is of the Boolean category, and whose rows have no more cells
    than there are column types, the function does not panic whatever the
    cells hold: it returns, nil or an error. *)
Theorem no_boolean_column_no_panic (fmt_other : ascii -> GoValue -> string)
    (db : DB) (table : string) (ig : bool) (lineRows : Rows (list GoValue))
    (tys : list string) (buf : string) :
  Query db (select_query table) = Ok lineRows ->
  ColumnTypes lineRows = Ok tys ->
  Forall (fun ty => classify (normalize ty) <> Some Boolean) tys ->
  Forall (fun s => forall row, s = Ok row -> (length row <= length tys)%nat)
         (scans lineRows) ->
  exists e, snd (writeTableData fmt_other db table ig buf) = Return e.
Proof.
  intros Hq Ht Hb Hs. apply writeTableData_returns.
  now apply (writeTableData_quiet fmt_other db table ig lineRows tys buf).
Qed.

Lemma no_boolean_column_no_panic_witness :
  exists e, snd (writeTableData fmt_unused shop_db "g" false "") = Return e.
Proof.
  apply (no_boolean_column_no_panic fmt_unused shop_db "g" false
           (mkRows (Ok ["id"; "shape"]) (Ok ["INT"; "GEOMETRY"])
              [Ok [VInt64 1; VNil]; Ok [VInt64 2; VBytes "POINT"]])
           ["INT"; "GEOMETRY"] "").
  - reflexivity.
  - reflexivity.
  - repeat constructor; intros H; discriminate H.
  - constructor; [|constructor; [|constructor]]; intros row H; injection H as <-; simpl; lia.
Defined.


(** X22 (Integer, Float, Decimal and YearNumber categories, lines
    315-328 and 358-364): a value the driver delivers as a byte sequence is
    written byte for byte, without quotes and without being read as a
    number. *)
Theorem number_bytes_written_verbatim (fmt_other : ascii -> GoValue -> string)
    (err : option error) (tys : list string) (i : nat) (ty bs : string)
    (c : ValueCategory) :
  tys !! i = Some ty ->
  classify (normalize ty) = Some c ->
  c = Integer \/ c = Float \/ c = Decimal \/ c = YearNumber ->
  render_cell fmt_other err tys i (VBytes bs) = Next bs.
Proof.
  intros Hty Hcat Hc.
  rewrite (render_cell_non_nil fmt_other err tys i ty) by (exact Hty || discriminate).
  revert Hcat. unfold classify, render_value.
  repeat match goal with
         | |- context [is_case ?t ?l] =>
             destruct (is_case t l);
             [intros [= <-]; first [now rewrite ?Sprintf_s_bytes | intuition discriminate]|]
         end.
  intros Hnone. discriminate Hnone.
Qed.

Lemma number_bytes_written_verbatim_witness :
  render_cell fmt_unused None ["DECIMAL"] 0 (VBytes "0012.50") = Next "0012.50".
Proof.
  apply (number_bytes_written_verbatim fmt_unused None ["DECIMAL"] 0 "DECIMAL" "0012.50"
           Decimal); [reflexivity|reflexivity|tauto].
Defined.
